(** * MoLing access-control guards: command allowlist and path sandbox

    A shallow embedding of the two gatekeepers of gojue/moling

    - [CommandServer.isAllowedCommand], [CommandConfig.Check],
      [CommandServer.LoadConfig], [CommandServer.handleExecuteCommand]
      (package [command]);
    - [FilesystemServer.isPathInAllowedDirs], [FilesystemServer.validatePath],
      [FileSystemConfig.Check], [NewFileSystemConfig] and the mutating file
      handlers (packages [services] and [filesystem]);

    together with the parts of Go's [strings] and [path/filepath] packages
    they call.  Go strings are byte sequences; they are modelled by
    [string], whose characters are bytes. *)

From Stdlib Require Import Bool Arith Lia List ZArith Permutation.
From Stdlib Require Import Ascii String DecimalString.
Import ListNotations.

Local Open Scope list_scope.
Local Open Scope string_scope.

(* ================================================================== *)
(** ** Go's [strings] package *)
(* ================================================================== *)

Module GoStrings.

(** [strings.HasPrefix(s, prefix)]: [len(s) >= len(prefix)] and
    [s[:len(prefix)] == prefix]. *)
Fixpoint HasPrefix (s prefix : string) : bool :=
  match prefix with
  | EmptyString => true
  | String p prefix' =>
      match s with
      | EmptyString => false
      | String c s' => Ascii.eqb c p && HasPrefix s' prefix'
      end
  end.

(** [strings.HasSuffix(s, suffix)]: [len(s) >= len(suffix)] and
    [s[len(s)-len(suffix):] == suffix]. *)
Definition HasSuffix (s suffix : string) : bool :=
  (length suffix <=? length s)%nat
  && String.eqb (substring (length s - length suffix) (length suffix) s) suffix.

(** [strings.Contains(s, substr)]: [substr] occurs at some index of [s]. *)
Fixpoint Contains (s substr : string) : bool :=
  HasPrefix s substr
  || match s with
     | EmptyString => false
     | String _ s' => Contains s' substr
     end.

(** [strings.Split(s, sep)] for a one-byte separator, which is what every
    call site of the program passes (["|"], ["&"], [","]) and what
    [filepath] scans for (['/']).  Without a separator in [s] the result
    is [[s]]; in particular [Split "" sep = [""]]. *)
Fixpoint Split (s : string) (sep : ascii) : list string :=
  match s with
  | EmptyString => [EmptyString]
  | String c s' =>
      if Ascii.eqb c sep then EmptyString :: Split s' sep
      else match Split s' sep with
           | h :: r => String c h :: r
           | [] => [String c EmptyString]
           end
  end.

(** [strings.Join(elems, sep)]. *)
Fixpoint Join (elems : list string) (sep : string) : string :=
  match elems with
  | [] => EmptyString
  | [e] => e
  | e :: rest => e ++ sep ++ Join rest sep
  end.

(** The [asciiSpace] table of package [strings]:
    ['\t'], ['\n'], ['\v'], ['\f'], ['\r'], [' ']. *)
Definition asciiSpace (c : ascii) : bool :=
  let n := nat_of_ascii c in
  ((9 <=? n) && (n <=? 13) || (n =? 32))%nat.

Fixpoint TrimLeftSpace (s : string) : string :=
  match s with
  | EmptyString => EmptyString
  | String c s' => if asciiSpace c then TrimLeftSpace s' else s
  end.

Fixpoint TrimRightSpace (s : string) : string :=
  match s with
  | EmptyString => EmptyString
  | String c s' =>
      match TrimRightSpace s' with
      | EmptyString => if asciiSpace c then EmptyString else String c EmptyString
      | t => String c t
      end
  end.

(** [strings.TrimSpace(s)] on its byte-wise path: leading and trailing
    bytes of [asciiSpace] are removed.  (Go also removes the white space
    of Unicode that UTF-8 encodes in several bytes >= 0x80; such bytes are
    kept here, so the model is that of Go on command lines whose white
    space is ASCII.) *)
Definition TrimSpace (s : string) : string :=
  TrimRightSpace (TrimLeftSpace s).

End GoStrings.
Import GoStrings.

(* ================================================================== *)
(** ** The operating system as the guards see it *)
(* ================================================================== *)

Module OS.

(** A Go [error]: its text and whether [os.IsNotExist] holds of it. *)
Record error := mkError {
  IsNotExist : bool;
  Error : string
}.

Inductive result (A : Type) :=
| Ok (a : A)
| Err (e : error).
Arguments Ok {A} a.
Arguments Err {A} e.

(** The part of [os.FileInfo] that the program reads. *)
Record FileInfo := mkFileInfo {
  Size : Z;
  IsDir : bool
}.

(** A snapshot of the file system: the answers of the read-only calls
    [os.Getwd], [os.Stat], [filepath.EvalSymlinks] and [os.ReadFile]. *)
Record FileSystem := mkFileSystem {
  Getwd : result string;
  Stat : string -> result FileInfo;
  EvalSymlinks : string -> result string;
  ReadFile : string -> result string
}.

End OS.
Import OS.

(* ================================================================== *)
(** ** The command allowlist (package [command]) *)
(* ================================================================== *)

Module Command.

(** [CommandConfig]: [AllowedCommand] is the comma-separated configuration
    string, [allowedCommands] the list the guard reads. *)
Record CommandConfig := mkCommandConfig {
  PromptFile : string;
  prompt : string;
  AllowedCommand : string;
  allowedCommands : list string
}.

(** The loop [for _, allowed := range allowedCommands] that returns [true]
    at the first entry that is a string prefix of the command. *)
Definition matchesAllowed (allowed : list string) (command : string) : bool :=
  existsb (fun a => HasPrefix command a) allowed.

(** [CommandServer.isAllowedCommand].  The Go function calls itself on the
    trimmed parts of a split; [fuel] bounds the depth of those calls. *)
Fixpoint isAllowedCommand_fuel (fuel : nat) (allowed : list string)
    (command : string) : bool :=
  match fuel with
  | O => false
  | S fuel' =>
      if matchesAllowed allowed command then true
      else if Contains command "|" then
        forallb (fun part => isAllowedCommand_fuel fuel' allowed (TrimSpace part))
                (Split command "|")
      else if Contains command "&" then
        forallb (fun part => isAllowedCommand_fuel fuel' allowed (TrimSpace part))
                (Split command "&")
      else false
  end.

(** Every recursive call is on a strictly shorter string, so a depth of
    [length command + 1] is never exhausted (lemma [isAllowedCommand_eq]
    below shows that the result then obeys the equation of the Go body). *)
Definition isAllowedCommand (allowed : list string) (command : string) : bool :=
  isAllowedCommand_fuel (S (length command)) allowed command.

(** The earlier revision of the same function (package [services]), which
    only knows the pipe. *)
Fixpoint isAllowedCommand_pipe_fuel (fuel : nat) (allowed : list string)
    (command : string) : bool :=
  match fuel with
  | O => false
  | S fuel' =>
      if matchesAllowed allowed command then true
      else if Contains command "|" then
        forallb (fun part => isAllowedCommand_pipe_fuel fuel' allowed (TrimSpace part))
                (Split command "|")
      else false
  end.

Definition isAllowedCommand_pipe (allowed : list string) (command : string) : bool :=
  isAllowedCommand_pipe_fuel (S (length command)) allowed command.

(** The text of [CommandPromptDefault] plays no part in the guard and is
    not reproduced. *)
Definition CommandPromptDefault : string := "command prompt".

Inductive CheckError :=
| NoAllowedCommands
| FailedToReadPrompt (file : string) (err : OS.error).

(** The counter [cnt] of [CommandConfig.Check]: the length of the list,
    less one for every empty entry. *)
Definition countUsable (cmds : list string) : Z :=
  fold_left (fun cnt cmd => if String.eqb cmd "" then (cnt - 1)%Z else cnt)
            cmds (Z.of_nat (List.length cmds)).

(** [CommandConfig.Check]: the configuration it leaves behind and the
    error it returns, if any.  [readFile] is [os.ReadFile]. *)
Definition Check (readFile : string -> OS.result string) (cc : CommandConfig)
    : CommandConfig * option CheckError :=
  let cc1 := {| PromptFile := PromptFile cc;
                prompt := CommandPromptDefault;
                AllowedCommand := AllowedCommand cc;
                allowedCommands := allowedCommands cc |} in
  if (countUsable (allowedCommands cc) <=? 0)%Z then (cc1, Some NoAllowedCommands)
  else if negb (String.eqb (PromptFile cc) "") then
    match readFile (PromptFile cc) with
    | OS.Err e => (cc1, Some (FailedToReadPrompt (PromptFile cc) e))
    | OS.Ok read =>
        ({| PromptFile := PromptFile cc;
            prompt := read;
            AllowedCommand := AllowedCommand cc;
            allowedCommands := allowedCommands cc |}, None)
    end
  else (cc1, None).

(** [CommandServer.LoadConfig] once [utils.MergeJSONToStruct] has written
    the keys [prompt_file] and [allowed_command] of the JSON object into
    [PromptFile] and [AllowedCommand]: the string is split at the commas
    and the result checked. *)
Definition LoadConfig (readFile : string -> OS.result string)
    (merged : CommandConfig) : CommandConfig * option CheckError :=
  Check readFile
    {| PromptFile := PromptFile merged;
       prompt := prompt merged;
       AllowedCommand := AllowedCommand merged;
       allowedCommands := Split (AllowedCommand merged) "," |}.

(** A command line that does not start with white space. *)
Definition noLeadingSpace (command : string) : bool :=
  match command with
  | EmptyString => true
  | String c _ => negb (asciiSpace c)
  end.

(** [CommandGuard.validate] of the specification, read off the boolean. *)
Inductive CommandRejection := NotAllowed.
Inductive CommandDecision :=
| CmdApproved
| CmdRejected (kind : CommandRejection).

Definition validate (allowed : list string) (command : string) : CommandDecision :=
  if isAllowedCommand allowed command then CmdApproved else CmdRejected NotAllowed.

End Command.

(* ================================================================== *)
(** ** Go's [path/filepath] package (Unix) *)
(* ================================================================== *)

Module Filepath.

(** [filepath.Separator] as a string. *)
Definition Separator : string := "/".

(** [filepath.IsAbs]: the path starts with a slash. *)
Definition IsAbs (path : string) : bool := HasPrefix path "/".

(** One path element of the scan of [filepath.Clean].  [out] holds the
    elements written so far, [dotdot] how many of them (leading [..] of a
    relative path) cannot be backtracked over: an empty element and [.]
    are dropped, [..] removes the last element when there is one to
    remove, is dropped at the root, and is kept in a relative path. *)
Definition cleanStep (rooted : bool) (st : list string * nat) (e : string)
    : list string * nat :=
  let '(out, dotdot) := st in
  if String.eqb e "" then st
  else if String.eqb e "." then st
  else if String.eqb e ".." then
    if (dotdot <? List.length out)%nat then (removelast out, dotdot)
    else if rooted then st
    else ((out ++ [".."])%list, S dotdot)
  else ((out ++ [e])%list, dotdot).

Definition cleanElems (rooted : bool) (elems : list string) : list string :=
  fst (fold_left (cleanStep rooted) elems ([], 0%nat)).

(** [filepath.Clean]. *)
Definition Clean (path : string) : string :=
  if String.eqb path "" then "."
  else
    let rooted := IsAbs path in
    let out := cleanElems rooted (Split path "/") in
    if rooted then "/" ++ Join out "/"
    else match out with
         | [] => "."
         | _ => Join out "/"
         end.

(** First result of [filepath.Split]: the path up to and including its
    last slash. *)
Fixpoint splitDir (path : string) : string :=
  match path with
  | EmptyString => EmptyString
  | String c path' =>
      if Contains path' "/" then String c (splitDir path')
      else if Ascii.eqb c "/" then "/"
      else EmptyString
  end.

(** [filepath.Dir]. *)
Definition Dir (path : string) : string := Clean (splitDir path).

(** [filepath.Join]: the elements from the first non-empty one on, joined
    by slashes and cleaned; the empty string when all are empty. *)
Fixpoint JoinPath (elem : list string) : string :=
  match elem with
  | [] => EmptyString
  | e :: rest =>
      if String.eqb e "" then JoinPath rest
      else Clean (Join elem "/")
  end.

(** [filepath.Abs]: an absolute path is cleaned, a relative one is joined
    to the working directory; it fails only when [os.Getwd] does. *)
Definition Abs (fs : OS.FileSystem) (path : string) : result string :=
  if IsAbs path then Ok (Clean path)
  else match OS.Getwd fs with
       | OS.Err e => OS.Err e
       | OS.Ok wd => OS.Ok (JoinPath [wd; path])
       end.

End Filepath.
Import Filepath.

(* ================================================================== *)
(** ** The path sandbox (packages [services] and [filesystem]) *)
(* ================================================================== *)

Module Filesystem.

(** [FileSystemConfig]: [AllowedDir] is the comma-separated configuration
    string, [allowedDirs] the roots the guard reads. *)
Record FileSystemConfig := mkFileSystemConfig {
  PromptFile : string;
  prompt : string;
  AllowedDir : string;
  allowedDirs : list string;
  CachePath : string
}.

(** [NewFileSystemConfig]; [allowedDirsDefault] is [os.TempDir()]. *)
Definition NewFileSystemConfig (allowedDirsDefault : string) (path : string)
    : FileSystemConfig :=
  let paths := Split path "," in
  let path := "" in
  let '(path, paths) :=
    if String.eqb (TrimSpace path) ""
    then (allowedDirsDefault, [allowedDirsDefault])
    else (path, paths) in
  {| PromptFile := "";
     prompt := "";
     AllowedDir := path;
     allowedDirs := paths;
     CachePath := path |}.

(** The configuration with which [NewFilesystemServer] builds the server:
    [NewFileSystemConfig(filepath.Join(globalConf.BasePath, "data"))]. *)
Definition NewFilesystemServer_config (allowedDirsDefault BasePath : string)
    : FileSystemConfig :=
  let userDataDir := JoinPath [BasePath; "data"] in
  NewFileSystemConfig allowedDirsDefault userDataDir.

(** The text of [FileSystemPromptDefault] plays no part in the guard and
    is not reproduced. *)
Definition FileSystemPromptDefault : string := "filesystem prompt".

Inductive CheckError :=
| FailedToResolve (dir : string) (err : error)
| FailedToAccess (abs : string) (err : error)
| NotADirectory (abs : string)
| FailedToReadPrompt (file : string) (err : error).

(** The loop of [FileSystemConfig.Check] over [allowedDirs], with
    [normalized] as accumulator. *)
Fixpoint normalizeDirs (fs : FileSystem) (dirs normalized : list string)
    : CheckError + list string :=
  match dirs with
  | [] => inr normalized
  | dir :: rest =>
      match Abs fs (TrimSpace dir) with
      | Err e => inl (FailedToResolve dir e)
      | Ok abs =>
          match Stat fs abs with
          | Err e => inl (FailedToAccess abs e)
          | Ok info =>
              if negb (IsDir info) then inl (NotADirectory abs)
              else normalizeDirs fs rest (normalized ++ [(Clean abs ++ Separator)%string])%list
          end
      end
  end.

(** [FileSystemConfig.Check]: the configuration it leaves behind and the
    error it returns, if any. *)
Definition Check (fs : FileSystem) (fc : FileSystemConfig)
    : FileSystemConfig * option CheckError :=
  let fc1 := {| PromptFile := PromptFile fc;
                prompt := FileSystemPromptDefault;
                AllowedDir := AllowedDir fc;
                allowedDirs := allowedDirs fc;
                CachePath := CachePath fc |} in
  match normalizeDirs fs (allowedDirs fc) [] with
  | inl e => (fc1, Some e)
  | inr normalized =>
      let fc2 := {| PromptFile := PromptFile fc;
                    prompt := FileSystemPromptDefault;
                    AllowedDir := AllowedDir fc;
                    allowedDirs := normalized;
                    CachePath := CachePath fc |} in
      if negb (String.eqb (PromptFile fc) "") then
        match ReadFile fs (PromptFile fc) with
        | Err e => (fc2, Some (FailedToReadPrompt (PromptFile fc) e))
        | Ok read =>
            ({| PromptFile := PromptFile fc;
                prompt := read;
                AllowedDir := AllowedDir fc;
                allowedDirs := normalized;
                CachePath := CachePath fc |}, None)
        end
      else (fc2, None)
  end.

(** The string that [isPathInAllowedDirs] compares with the roots: the
    absolute path with a separator at its end, or the directory of the
    path with a separator when the path is that of a file. *)
Definition candidate (fs : FileSystem) (absPath : string) : string :=
  if negb (HasSuffix absPath Separator) then
    match Stat fs absPath with
    | Ok info =>
        if negb (IsDir info) then Dir absPath ++ Separator
        else absPath ++ Separator
    | Err _ => absPath ++ Separator
    end
  else absPath.

(** [FilesystemServer.isPathInAllowedDirs]. *)
Definition isPathInAllowedDirs (fs : FileSystem) (allowedDirs : list string)
    (path : string) : bool :=
  match Abs fs path with
  | Err _ => false
  | Ok absPath =>
      existsb (fun dir => HasPrefix (candidate fs absPath) dir) allowedDirs
  end.

(** The errors of [validatePath], named as the specification names the
    rejection kinds; [ResolveFailed] is the error of
    [filepath.EvalSymlinks] passed on as it is. *)
Inductive PathRejection :=
| InvalidPath (err : error)
| OutsideAllowedRoots (abs : string)
| ResolveFailed (err : error)
| ParentMissing (parent : string)
| ParentOutsideAllowedRoots
| SymlinkEscapesRoot.

Inductive PathDecision :=
| Approved (canonicalPath : string)
| Rejected (kind : PathRejection).

(** [FilesystemServer.validatePath]. *)
Definition validatePath (fs : FileSystem) (allowedDirs : list string)
    (requestedPath : string) : PathDecision :=
  match Abs fs requestedPath with
  | Err e => Rejected (InvalidPath e)
  | Ok abs =>
      if negb (isPathInAllowedDirs fs allowedDirs abs) then
        Rejected (OutsideAllowedRoots abs)
      else
        match EvalSymlinks fs abs with
        | Err e =>
            if negb (IsNotExist e) then Rejected (ResolveFailed e)
            else
              let parent := Dir abs in
              match EvalSymlinks fs parent with
              | Err _ => Rejected (ParentMissing parent)
              | Ok realParent =>
                  if negb (isPathInAllowedDirs fs allowedDirs realParent) then
                    Rejected ParentOutsideAllowedRoots
                  else Approved abs
              end
        | Ok realPath =>
            if negb (isPathInAllowedDirs fs allowedDirs realPath) then
              Rejected SymlinkEscapesRoot
            else Approved realPath
        end
  end.

(** The text of the error that [validatePath] returns ([err.Error()]). *)
Definition rejectionText (r : PathRejection) : string :=
  match r with
  | InvalidPath e => "invalid path: " ++ Error e
  | OutsideAllowedRoots abs =>
      "access denied - path outside allowed directories: " ++ abs
  | ResolveFailed e => Error e
  | ParentMissing parent => "parent directory does not exist: " ++ parent
  | ParentOutsideAllowedRoots =>
      "access denied - parent directory outside allowed directories"
  | SymlinkEscapesRoot =>
      "access denied - symlink target outside allowed directories"
  end.

End Filesystem.

(* ================================================================== *)
(** ** The tool handlers and their effects on the machine *)
(* ================================================================== *)

Module Handlers.

Import Filesystem.

(** A value of Go's [any] as a handler receives it in the request
    arguments: the type assertion [.(string)] succeeds on [AnyString]
    only (a missing key reads as [nil] and fails it as well). *)
Inductive any :=
| AnyString (s : string)
| AnyOther.

Definition Arguments := list (string * any).

Fixpoint lookupArg (args : Arguments) (key : string) : option any :=
  match args with
  | [] => None
  | (k, v) :: rest => if String.eqb k key then Some v else lookupArg rest key
  end.

(** [args[key].(string)]. *)
Definition stringArg (args : Arguments) (key : string) : option string :=
  match lookupArg args key with
  | Some (AnyString s) => Some s
  | _ => None
  end.

(** [mcp.Content] and [mcp.CallToolResult]. *)
Inductive Content :=
| TextContent (text : string)
| EmbeddedResource (uri mimeType text : string).

Record CallToolResult := mkCallToolResult {
  ResultContent : list Content;
  IsError : bool
}.

(** [mcp.NewToolResultError] and [mcp.NewToolResultText]. *)
Definition NewToolResultError (text : string) : CallToolResult :=
  {| ResultContent := [TextContent text]; IsError := true |}.

Definition NewToolResultText (text : string) : CallToolResult :=
  {| ResultContent := [TextContent text]; IsError := false |}.

(** Modelled from the spec: the helpers [CallToolResultErr] and
    [CallToolResult] of [MLService], which are not among the sources.  A
    rejection is returned "as a structured refusal message"; they are
    taken to build what [handleWriteFile] builds by hand for the same
    purpose, a text content with [IsError] set, respectively unset. *)
Definition CallToolResultErr (msg : string) : CallToolResult :=
  NewToolResultError msg.

Definition CallToolResultOk (msg : string) : CallToolResult :=
  NewToolResultText msg.

(** [utils.PathToResourceURI]. *)
Definition pathToResourceURI (path : string) : string := "file://" ++ path.

(** [%d] of [fmt.Sprintf]. *)
Definition itoa (z : Z) : string :=
  DecimalString.NilZero.string_of_int (Z.to_int z).

(** What a handler does to the machine besides reading it. *)
Inductive Effect :=
| Log (msg : string)
| Spawn (command : string)
| MkdirAll (path : string)
| WriteFile (name data : string)
| Rename (oldpath newpath : string).

(** An effect that the caller asked for: a process, or a change of the
    file system. *)
Definition isRequestedEffect (e : Effect) : bool :=
  match e with
  | Log _ => false
  | _ => true
  end.

(** The machine: a state [W], the file system read in a state, and the
    calls that change the state.  [ExecCommand] is the function of that
    name of package [command], which is not among the sources. *)
Record Machine (W : Type) := mkMachine {
  files : W -> FileSystem;
  osMkdirAll : string -> W -> option error * W;
  osWriteFile : string -> string -> W -> option error * W;
  osRename : string -> string -> W -> option error * W;
  ExecCommand : string -> W -> result string * W
}.
Arguments files {W} _ _.
Arguments osMkdirAll {W} _ _ _.
Arguments osWriteFile {W} _ _ _ _.
Arguments osRename {W} _ _ _ _.
Arguments ExecCommand {W} _ _ _.

Section WithMachine.

Context {W : Type}.
Variable machine : Machine W.

(** A handler runs from a machine state and a trace of effects to a
    value, a new state and a longer trace. *)
Definition M (A : Type) : Type := W * list Effect -> A * (W * list Effect).

Definition ret {A} (a : A) : M A := fun st => (a, st).

Definition bind {A B} (m : M A) (k : A -> M B) : M B :=
  fun st => let '(a, st') := m st in k a st'.

Notation "x <- m ;; k" := (bind m (fun x => k))
  (at level 61, m at next level, right associativity).

(** The read-only calls: they look at the state and leave no trace. *)
Definition readFS : M FileSystem :=
  fun st => (files machine (fst st), st).

(** The other calls act on the state and are recorded. *)
Definition emit (e : Effect) : M unit :=
  fun st => (tt, (fst st, (snd st ++ [e])%list)).

Definition act {A} (e : Effect) (call : W -> A * W) : M A :=
  fun st => let '(a, w') := call (fst st) in (a, (w', (snd st ++ [e])%list)).

Definition doLog (msg : string) : M unit := emit (Log msg).

Definition doExecCommand (command : string) : M (result string) :=
  act (Spawn command) (ExecCommand machine command).

Definition doMkdirAll (path : string) : M (option error) :=
  act (MkdirAll path) (osMkdirAll machine path).

Definition doWriteFile (name data : string) : M (option error) :=
  act (WriteFile name data) (osWriteFile machine name data).

Definition doRename (oldpath newpath : string) : M (option error) :=
  act (Rename oldpath newpath) (osRename machine oldpath newpath).

(** [CommandServer.handleExecuteCommand].  [configPath] is
    [filepath.Join(BasePath, "config", ConfigFile)] of the global
    configuration, named in the log line. *)
Definition handleExecuteCommand (allowedCommands : list string)
    (configPath : string) (args : Arguments) : M CallToolResult :=
  match stringArg args "command" with
  | None => ret (NewToolResultError "command must be a string")
  | Some command =>
      if negb (Command.isAllowedCommand allowedCommands command) then
        _ <- doLog ("If you want to allow this command, add it to " ++ configPath) ;;
        ret (NewToolResultError ("Error: Command '" ++ command ++ "' is not allowed"))
      else
        r <- doExecCommand command ;;
        match r with
        | Err err => ret (NewToolResultError ("Error executing command: " ++ Error err))
        | Ok output => ret (NewToolResultText output)
        end
  end.

(** [FilesystemServer.handleWriteFile]. *)
Definition handleWriteFile (fc : FileSystemConfig) (args : Arguments)
    : M CallToolResult :=
  match stringArg args "path" with
  | None => ret (CallToolResultErr "Path must be a string")
  | Some path =>
  match stringArg args "content" with
  | None => ret (CallToolResultErr "Content must be a string")
  | Some content =>
      let path := JoinPath [CachePath fc; path] in
      fs <- readFS ;;
      match validatePath fs (allowedDirs fc) path with
      | Rejected err =>
          ret {| ResultContent := [TextContent ("Error: " ++ rejectionText err)];
                 IsError := true |}
      | Approved validPath =>
          match Stat fs validPath with
          | Ok (mkFileInfo _ true) =>
              ret (CallToolResultErr ("Error: Cannot write to a directory:" ++ validPath))
          | _ =>
              let parentDir := Dir validPath in
              e <- doMkdirAll parentDir ;;
              match e with
              | Some err =>
                  ret (CallToolResultErr ("Error creating parent directories: " ++ Error err))
              | None =>
                  e <- doWriteFile validPath content ;;
                  match e with
                  | Some err =>
                      ret (CallToolResultErr ("Error writing file: " ++ Error err))
                  | None =>
                      fs' <- readFS ;;
                      match Stat fs' validPath with
                      | Err _ =>
                          ret (CallToolResultOk ("Successfully wrote to " ++ path))
                      | Ok info =>
                          let resourceURI := pathToResourceURI validPath in
                          ret {| ResultContent :=
                                   [TextContent ("Successfully wrote " ++ itoa (Size info)
                                                 ++ " bytes to " ++ path);
                                    EmbeddedResource resourceURI "text/plain"
                                      ("File: " ++ validPath ++ " ("
                                       ++ itoa (Size info) ++ " bytes)")];
                                 IsError := false |}
                      end
                  end
              end
          end
      end
  end
  end.

(** [FilesystemServer.handleCreateDirectory]. *)
Definition handleCreateDirectory (fc : FileSystemConfig) (args : Arguments)
    : M CallToolResult :=
  match stringArg args "path" with
  | None => ret (CallToolResultErr "path must be a string")
  | Some path =>
      fs <- readFS ;;
      match validatePath fs (allowedDirs fc) path with
      | Rejected err => ret (CallToolResultErr ("Error: " ++ rejectionText err))
      | Approved validPath =>
          match Stat fs validPath with
          | Ok info =>
              if IsDir info then
                let resourceURI := pathToResourceURI validPath in
                ret {| ResultContent :=
                         [TextContent ("Directory already exists: " ++ path);
                          EmbeddedResource resourceURI "text/plain"
                            ("Directory: " ++ validPath)];
                       IsError := false |}
              else
                ret (CallToolResultErr
                       ("Error: Path exists but is not a directory: " ++ path))
          | Err _ =>
              e <- doMkdirAll validPath ;;
              match e with
              | Some err =>
                  ret (CallToolResultErr ("Error creating directory: " ++ Error err))
              | None =>
                  let resourceURI := pathToResourceURI validPath in
                  ret {| ResultContent :=
                           [TextContent ("Successfully created directory " ++ path);
                            EmbeddedResource resourceURI "text/plain"
                              ("Directory: " ++ validPath)];
                         IsError := false |}
              end
          end
      end
  end.

(** [FilesystemServer.handleMoveFile]. *)
Definition handleMoveFile (fc : FileSystemConfig) (args : Arguments)
    : M CallToolResult :=
  match stringArg args "source" with
  | None => ret (CallToolResultErr "source must be a string")
  | Some source =>
  match stringArg args "destination" with
  | None => ret (CallToolResultErr "destination must be a string")
  | Some destination =>
      fs <- readFS ;;
      match validatePath fs (allowedDirs fc) source with
      | Rejected err =>
          ret (CallToolResultErr ("Error with source path: " ++ rejectionText err))
      | Approved validSource =>
          let sourceMissing :=
            match Stat fs validSource with
            | Err err => IsNotExist err
            | Ok _ => false
            end in
          if sourceMissing then
            ret (CallToolResultErr ("Error: Source does not exist: " ++ source))
          else
            match validatePath fs (allowedDirs fc) destination with
            | Rejected err =>
                ret (CallToolResultErr
                       ("Error with destination path: " ++ rejectionText err))
            | Approved validDest =>
                let destDir := Dir validDest in
                e <- doMkdirAll destDir ;;
                match e with
                | Some err =>
                    ret (CallToolResultErr
                           ("Error creating destination directory: " ++ Error err))
                | None =>
                    e <- doRename validSource validDest ;;
                    match e with
                    | Some err =>
                        ret (CallToolResultErr ("Error moving file: " ++ Error err))
                    | None =>
                        let resourceURI := pathToResourceURI validDest in
                        ret {| ResultContent :=
                                 [TextContent ("Successfully moved " ++ source
                                               ++ " to " ++ destination);
                                  EmbeddedResource resourceURI "text/plain"
                                    ("Moved file: " ++ validDest)];
                               IsError := false |}
                    end
                end
            end
      end
  end
  end.

(** Run a handler on a machine state with an empty trace. *)
Definition run {A} (m : M A) (w : W) : A * (W * list Effect) := m (w, []).

(** The outcome of a handler that refused: the result is an error, the
    machine is in the state [w] in which the handler found it, and
    nothing of what the trace holds is an effect the caller asked for. *)
Definition refused (w : W) (outcome : CallToolResult * (W * list Effect)) : Prop :=
  IsError (fst outcome) = true
  /\ fst (snd outcome) = w
  /\ filter isRequestedEffect (snd (snd outcome)) = [].

End WithMachine.

End Handlers.

(* ================================================================== *)
(** ** A file system in memory *)
(* ================================================================== *)

(** A small file system on which the guards can be run: a table from
    clean absolute paths to directories, regular files and symbolic
    links, with the answers that [os.Stat], [filepath.EvalSymlinks] and
    [os.ReadFile] give on it.  It serves the examples; all general
    statements are about an arbitrary [FileSystem]. *)
Module MemFS.

Inductive Node :=
| Directory
| Regular (data : string)
| Symlink (target : string).

Definition Tree := list (string * Node).

Fixpoint lookup (t : Tree) (path : string) : option Node :=
  match t with
  | [] => None
  | (p, n) :: rest => if String.eqb p path then Some n else lookup rest path
  end.

(** The path with the given elements below the root. *)
Definition render (elems : list string) : string := "/" ++ Join elems "/".

(** [os.Lstat] of the path with the given elements; the root is a
    directory. *)
Definition lstat (t : Tree) (elems : list string) : option Node :=
  match elems with
  | [] => Some Directory
  | _ => lookup t (render elems)
  end.

Definition ENOENT : error := mkError true "no such file or directory".
Definition ENOTDIR : error := mkError false "not a directory".
Definition ELOOP : error := mkError false "EvalSymlinks: too many links".
Definition EISDIR : error := mkError false "is a directory".

(** The walk of [filepath.EvalSymlinks] from the root: [dest] holds the
    elements resolved so far, [rem] those still to go; a link replaces
    itself by its target (from the root when the target is absolute), at
    most [links] times. *)
Fixpoint walk (links : nat) (t : Tree) (dest rem : list string) : result string :=
  match links with
  | O => Err ELOOP
  | S links' =>
      (fix go (dest rem : list string) {struct rem} : result string :=
         match rem with
         | [] => Ok (render dest)
         | c :: rest =>
             if String.eqb c "" || String.eqb c "." then go dest rest
             else if String.eqb c ".." then go (removelast dest) rest
             else
               match lstat t (dest ++ [c])%list with
               | None => Err ENOENT
               | Some Directory => go (dest ++ [c])%list rest
               | Some (Regular _) =>
                   match rest with
                   | [] => Ok (render (dest ++ [c])%list)
                   | _ => Err ENOTDIR
                   end
               | Some (Symlink target) =>
                   walk links' t (if IsAbs target then [] else dest)
                        (Split target "/" ++ rest)%list
               end
         end) dest rem
  end.

(** Paths are resolved from the root; a relative path is first put
    under the working directory (the guards only ever ask about
    absolute paths). *)
Definition fromRoot (cwd path : string) : string :=
  if IsAbs path then path else cwd ++ "/" ++ path.

Definition evalSymlinks (t : Tree) (cwd path : string) : result string :=
  walk 256 t [] (Split (fromRoot cwd path) "/").

Definition resolve (t : Tree) (cwd path : string) : result Node :=
  match evalSymlinks t cwd path with
  | Err e => Err e
  | Ok real =>
      match lstat t (filter (fun e => negb (String.eqb e "")) (Split real "/")) with
      | Some n => Ok n
      | None => Err ENOENT
      end
  end.

Definition stat (t : Tree) (cwd path : string) : result FileInfo :=
  match resolve t cwd path with
  | Err e => Err e
  | Ok Directory => Ok (mkFileInfo 4096 true)
  | Ok (Regular data) => Ok (mkFileInfo (Z.of_nat (length data)) false)
  | Ok (Symlink _) => Err ELOOP
  end.

Definition readFile (t : Tree) (cwd path : string) : result string :=
  match resolve t cwd path with
  | Err e => Err e
  | Ok (Regular data) => Ok data
  | Ok Directory => Err EISDIR
  | Ok (Symlink _) => Err ELOOP
  end.

(** The file system [t] seen from the working directory [cwd]. *)
Definition snapshot (t : Tree) (cwd : string) : FileSystem :=
  {| Getwd := Ok cwd;
     Stat := stat t cwd;
     EvalSymlinks := evalSymlinks t cwd;
     ReadFile := readFile t cwd |}.

(** A machine whose state is the tree.  Its mutating calls are refused
    (the examples are about requests that never reach them). *)
Definition EROFS : error := mkError false "read-only file system".

Definition machine (cwd : string) : Handlers.Machine Tree :=
  {| Handlers.files := fun t => snapshot t cwd;
     Handlers.osMkdirAll := fun _ t => (Some EROFS, t);
     Handlers.osWriteFile := fun _ _ t => (Some EROFS, t);
     Handlers.osRename := fun _ _ t => (Some EROFS, t);
     Handlers.ExecCommand := fun _ t => (Err EROFS, t) |}.

End MemFS.

(* ================================================================== *)
(** ** Paths and roots, element by element *)
(* ================================================================== *)

(** The notions in which the properties of the path sandbox are stated:
    what it means for a path to lie under a root, compared path element
    by path element, and what the configuration check and the operating
    system are relied on for. *)
Module Sandbox.

(** The elements of a path: what stands between its slashes. *)
Definition pathElems (path : string) : list string :=
  filter (fun e => negb (String.eqb e "")) (Split path "/").

Fixpoint isPrefixOf (l1 l2 : list string) : bool :=
  match l1 with
  | [] => true
  | x :: l1' =>
      match l2 with
      | [] => false
      | y :: l2' => String.eqb x y && isPrefixOf l1' l2'
      end
  end.

(** [path] is the directory [root] or lies below it. *)
Definition under (root path : string) : bool :=
  isPrefixOf (pathElems root) (pathElems path).


(** The absolute path with the given elements. *)
Definition absPath (elems : list string) : string := "/" ++ Join elems "/".

(** An element of a clean absolute path: not empty, not [.], not [..],
    and without slash. *)
Definition elemOK (e : string) : bool :=
  negb (String.eqb e "") && negb (String.eqb e ".")
  && negb (String.eqb e "..") && negb (Contains e "/").

(** A path as [filepath.Abs] and [filepath.EvalSymlinks] return it:
    absolute and clean. *)
Definition cleanAbs (path : string) : bool :=
  IsAbs path && String.eqb (Clean path) path.

(** A root as [FileSystemConfig.Check] stores it: a clean absolute path
    followed by a separator. *)
Definition normalizedRoot (root : string) : bool :=
  IsAbs root && String.eqb (Clean root ++ Separator) root.

(** Whether a call failed with an error of which [os.IsNotExist] holds. *)
Definition IsNotExist_of {A} (r : result A) : bool :=
  match r with
  | Ok _ => false
  | Err e => IsNotExist e
  end.

(** The root that [FileSystemConfig.Check] stores for a configured
    directory, when the directory passes the check: its absolute path can
    be computed and [os.Stat] finds a directory there. *)
Definition rootOf (fs : FileSystem) (dir : string) : option string :=
  match Abs fs (TrimSpace dir) with
  | Err _ => None
  | Ok abs =>
      match Stat fs abs with
      | Err _ => None
      | Ok info => if IsDir info then Some (Clean abs ++ Separator) else None
      end
  end.

(** [os.Getwd] returns an absolute path when it returns one. *)
Definition wdAbsolute (fs : FileSystem) : bool :=
  match Getwd fs with
  | Ok wd => IsAbs wd
  | Err _ => true
  end.


End Sandbox.

(* ================================================================== *)
(** ** A sample file system *)
(* ================================================================== *)

Module Sample.

Import MemFS.

(** One allowed root, [/sandbox/].  Below it a directory with a file, and
    a link to a directory outside; outside it, a link to the directory
    inside. *)
Definition tree : Tree :=
  [("/sandbox", Directory);
   ("/sandbox/a", Directory);
   ("/sandbox/a/f.txt", Regular "hello");
   ("/sandbox/link", Symlink "/outside");
   ("/outside", Directory);
   ("/outside/secret", Regular "x");
   ("/home", Directory);
   ("/home/in", Symlink "/sandbox/a")].

Definition fs : FileSystem := snapshot tree "/".

Definition roots : list string := ["/sandbox/"].

End Sample.

(* ================================================================== *)
(** ** More of the packages [strings], [command], [filesystem], [utils] *)
(* ================================================================== *)

Module MoreStrings.

(** [strings.TrimPrefix] and [strings.TrimSuffix]. *)
Definition TrimPrefix (s prefix : string) : string :=
  if HasPrefix s prefix
  then substring (length prefix) (length s - length prefix) s
  else s.

Definition TrimSuffix (s suffix : string) : string :=
  if HasSuffix s suffix
  then substring 0 (length s - length suffix) s
  else s.



(** The line feed of the message texts. *)
Definition nl : string := String (ascii_of_nat 10) "".

End MoreStrings.
Import MoreStrings.

Module CommandDefaults.

Import Command.

(** [allowedCmdDefault], as the source writes it. *)
Definition allowedCmdDefault : list string :=
  ["ls"; "cat"; "echo"; "pwd"; "head"; "tail"; "grep"; "find"; "stat"; "df";
   "du"; "free"; "top"; "ps"; "uptime"; "who"; "w"; "last"; "uname"; "hostname";
   "ifconfig"; "netstat"; "ping"; "traceroute"; "route"; "ip"; "ss"; "lsof"; "vmstat";
   "iostat"; "mpstat"; "sar"; "uptime"; "cut"; "sort"; "uniq"; "wc"; "awk"; "sed";
   "diff"; "cmp"; "comm"; "file"; "basename"; "dirname"; "chmod"; "chown"; "curl";
   "nslookup"; "dig"; "host"; "ssh"; "scp"; "sftp"; "ftp"; "wget"; "tar"; "gzip";
   "scutil"; "networksetup, git"; "cd"].

(** [NewCommandConfig]. *)
Definition NewCommandConfig : CommandConfig :=
  {| PromptFile := "";
     prompt := "";
     AllowedCommand := Join allowedCmdDefault ",";
     allowedCommands := allowedCmdDefault |}.

(** The configuration as [CommandServer.Config] leaves it before it
    marshals its exported fields: [AllowedCommand] is rewritten from the
    list. *)
Definition Config (cc : CommandConfig) : CommandConfig :=
  {| PromptFile := PromptFile cc;
     prompt := prompt cc;
     AllowedCommand := Join (allowedCommands cc) ",";
     allowedCommands := allowedCommands cc |}.

End CommandDefaults.

Module FilesystemServer.

Import Filesystem Handlers.

(** [FilesystemServer.LoadConfig] once [mergeJSONToStruct] has written
    the keys of the JSON object into the exported fields: [AllowedDir] is
    split at the commas and the result checked. *)
Definition LoadConfig (fs : FileSystem) (merged : FileSystemConfig)
    : FileSystemConfig * option CheckError :=
  Filesystem.Check fs
    {| PromptFile := PromptFile merged;
       prompt := prompt merged;
       AllowedDir := AllowedDir merged;
       allowedDirs := Split (AllowedDir merged) ",";
       CachePath := CachePath merged |}.

(** The configuration as [FilesystemServer.Config] leaves it before it
    marshals its exported fields: [AllowedDir] is rewritten from the
    roots. *)
Definition Config (fc : FileSystemConfig) : FileSystemConfig :=
  {| PromptFile := PromptFile fc;
     prompt := prompt fc;
     AllowedDir := Join (allowedDirs fc) ",";
     allowedDirs := allowedDirs fc;
     CachePath := CachePath fc |}.

(** The directories that [handleListAllowedDirectories] displays. *)
Definition displayDirs (fc : FileSystemConfig) : list string :=
  map (fun dir => TrimSuffix dir Separator) (allowedDirs fc).

(** [FilesystemServer.handleListAllowedDirectories]. *)
Definition handleListAllowedDirectories (fc : FileSystemConfig)
    : CallToolResult :=
  CallToolResultOk
    (fold_left
       (fun result dir =>
          result ++ (dir ++ " (" ++ pathToResourceURI dir ++ ")" ++ nl))
       (displayDirs fc)
       ("Allowed directories:" ++ nl ++ nl)).





End FilesystemServer.

Module Utils.

(** [utils.StringInSlice]. *)
Fixpoint StringInSlice (s : string) (modules : list string) : bool :=
  match modules with
  | [] => false
  | module :: rest => if String.eqb module s then true else StringInSlice s rest
  end.

(** A value of a decoded JSON object as [utils.MergeJSONToStruct] meets
    it when the field it is meant for is a string: a string; [nil], of
    which [reflect.ValueOf] has no type; or a value of a type that does
    not convert to a string (a number, a boolean, an array, an
    object). *)
Inductive JSON :=
| JString (s : string)
| JNull
| JOther.

(** A field of the target struct, all of whose settable fields are
    strings: its [json] tag, whether it can be set (it is exported), and
    its value. *)
Record Field := mkField {
  tag : string;
  canSet : bool;
  value : string
}.

Inductive MergeOutcome :=
| Merged
| TypeMismatch (jsonKey : string)
| Panic.

(** The inner loop of [MergeJSONToStruct], over the fields of the
    struct, for one key of the JSON object. *)
Fixpoint mergeKey (jsonKey : string) (jsonValue : JSON) (fields : list Field)
    : list Field * MergeOutcome :=
  match fields with
  | [] => ([], Merged)
  | field :: rest =>
      if String.eqb (tag field) jsonKey && canSet field then
        match jsonValue with
        | JString s =>
            let '(rest', outcome) := mergeKey jsonKey jsonValue rest in
            (mkField (tag field) (canSet field) s :: rest', outcome)
        | JNull => (field :: rest, Panic)
        | JOther => (field :: rest, TypeMismatch jsonKey)
        end
      else
        let '(rest', outcome) := mergeKey jsonKey jsonValue rest in
        (field :: rest', outcome)
  end.

(** [utils.MergeJSONToStruct]; the JSON object is given by its entries
    in the order in which the loop meets them.  The struct is changed in
    place, so the fields are returned whatever the outcome. *)
Fixpoint MergeJSONToStruct (fields : list Field) (jsonMap : list (string * JSON))
    : list Field * MergeOutcome :=
  match jsonMap with
  | [] => (fields, Merged)
  | (jsonKey, jsonValue) :: rest =>
      let '(fields', outcome) := mergeKey jsonKey jsonValue fields in
      match outcome with
      | Merged => MergeJSONToStruct fields' rest
      | _ => (fields', outcome)
      end
  end.

(** The value of a key in the JSON object. *)
Fixpoint jsonLookup (jsonMap : list (string * JSON)) (key : string) : option JSON :=
  match jsonMap with
  | [] => None
  | (k, v) :: rest => if String.eqb k key then Some v else jsonLookup rest key
  end.

(** What the inner loop does to one field when the value of the key is
    a string. *)
Definition setField (jsonKey s : string) (field : Field) : Field :=
  if String.eqb (tag field) jsonKey && canSet field
  then mkField (tag field) (canSet field) s
  else field.

(** A field can take what the JSON object holds under its tag: the
    field cannot be set, or the object has no such key, or a string. *)
Definition takes (jsonMap : list (string * JSON)) (field : Field) : bool :=
  if canSet field then
    match jsonLookup jsonMap (tag field) with
    | Some JNull | Some JOther => false
    | _ => true
    end
  else true.

(** The field once the JSON object is merged into it. *)
Definition mergedField (jsonMap : list (string * JSON)) (field : Field) : Field :=
  if canSet field then
    match jsonLookup jsonMap (tag field) with
    | Some (JString s) => mkField (tag field) (canSet field) s
    | _ => field
    end
  else field.

(** The fields of [CommandConfig], in the order of their declaration,
    and the configuration with the values of the exported ones. *)
Definition commandFields (cc : Command.CommandConfig) : list Field :=
  [mkField "prompt_file" true (Command.PromptFile cc);
   mkField "" false (Command.prompt cc);
   mkField "allowed_command" true (Command.AllowedCommand cc);
   mkField "" false ""].

Definition commandOfFields (cc : Command.CommandConfig) (fields : list Field)
    : Command.CommandConfig :=
  match fields with
  | [promptFile; _; allowedCommand; _] =>
      Command.mkCommandConfig (value promptFile) (Command.prompt cc)
                              (value allowedCommand) (Command.allowedCommands cc)
  | _ => cc
  end.

(** [CommandServer.LoadConfig] on a JSON object. *)
Definition CommandLoadConfig (readFile : string -> result string)
    (cc : Command.CommandConfig) (jsonData : list (string * JSON))
    : Command.CommandConfig * (MergeOutcome + option Command.CheckError) :=
  let '(fields, outcome) := MergeJSONToStruct (commandFields cc) jsonData in
  match outcome with
  | Merged =>
      let '(cc', err) := Command.LoadConfig readFile (commandOfFields cc fields) in
      (cc', inr err)
  | _ => (commandOfFields cc fields, inl outcome)
  end.

(** The selection of the services in [mlsCommandFunc]: with the flag
    [--module] at [all] every service is started, otherwise those whose
    name is in the list that the flag gives. *)
Definition moduleSelected (moduleFlag srvName : string) : bool :=
  let modules :=
    if negb (String.eqb moduleFlag "all") then Split moduleFlag "," else [] in
  if (0 <? List.length modules)%nat
  then StringInSlice srvName modules
  else true.

End Utils.

Module Resource.

Import Filesystem.

(** [MaxInlineSize] and [MaxBase64Size]. *)
Definition MaxInlineSize : Z := 1024 * 1024 * 5.
Definition MaxBase64Size : Z := 1024 * 1024 * 1.

(** [mcp.ResourceContents]. *)
Inductive ResourceContents :=
| TextResourceContents (URI MIMEType Text : string)
| BlobResourceContents (URI MIMEType Blob : string).

(** An entry of [os.ReadDir]: its name, whether it is a directory, and
    what [entry.Info()] returns. *)
Record DirEntry := mkDirEntry {
  Name : string;
  EntryIsDir : bool;
  Info : result FileInfo
}.

(** What [handleReadResource] reads besides the [FileSystem]:
    [os.ReadDir], the functions [detectMimeType] and [isTextFile] of the
    package, and [base64.StdEncoding.EncodeToString]. *)
Record Reader := mkReader {
  ReadDir : string -> result (list DirEntry);
  detectMimeType : string -> string;
  isTextFile : string -> bool;
  EncodeToString : string -> string
}.

Inductive ResourceError :=
| UnsupportedScheme (uri : string)
| PathError (kind : PathRejection)
| OSError (err : error).

(** The line of a directory listing for one entry. *)
Definition entryLine (validPath : string) (entry : DirEntry) : string :=
  let entryPath := JoinPath [validPath; Name entry] in
  let entryURI := Handlers.pathToResourceURI entryPath in
  if EntryIsDir entry then
    "[DIR]  " ++ Name entry ++ " (" ++ entryURI ++ ")" ++ nl
  else
    match Info entry with
    | Ok info =>
        "[FILE] " ++ Name entry ++ " (" ++ entryURI ++ ") - "
        ++ Handlers.itoa (Size info) ++ " bytes" ++ nl
    | Err _ => "[FILE] " ++ Name entry ++ " (" ++ entryURI ++ ")" ++ nl
    end.

(** [FilesystemServer.handleReadResource], its debug log line apart. *)
Definition handleReadResource (fs : FileSystem) (rd : Reader)
    (roots : list string) (uri : string)
    : ResourceError + list ResourceContents :=
  if negb (HasPrefix uri "file://") then inl (UnsupportedScheme uri)
  else
    let path := TrimPrefix uri "file://" in
    match validatePath fs roots path with
    | Rejected kind => inl (PathError kind)
    | Approved validPath =>
        match Stat fs validPath with
        | Err err => inl (OSError err)
        | Ok fileInfo =>
            if IsDir fileInfo then
              match ReadDir rd validPath with
              | Err err => inl (OSError err)
              | Ok entries =>
                  let result :=
                    fold_left (fun result entry => result ++ entryLine validPath entry)
                              entries
                              ("Directory listing for: " ++ validPath ++ nl ++ nl) in
                  inr [TextResourceContents uri "text/plain" result]
              end
            else
              let mimeType := detectMimeType rd validPath in
              if (MaxInlineSize <? Size fileInfo)%Z then
                inr [TextResourceContents uri "text/plain"
                       ("File is too large to display inline ("
                        ++ Handlers.itoa (Size fileInfo)
                        ++ " bytes). Use the read_file tool to access specific portions.")]
              else
                match ReadFile fs validPath with
                | Err err => inl (OSError err)
                | Ok content =>
                    if isTextFile rd mimeType then
                      inr [TextResourceContents uri mimeType content]
                    else if (Size fileInfo <=? MaxBase64Size)%Z then
                      inr [BlobResourceContents uri mimeType
                             (EncodeToString rd content)]
                    else
                      inr [TextResourceContents uri "text/plain"
                             ("Binary file (" ++ mimeType ++ ", "
                              ++ Handlers.itoa (Size fileInfo)
                              ++ " bytes). Use the read_file tool to access specific portions.")]
                end
        end
    end.

(** A reader for the examples: no directory can be listed, every file
    is taken for binary data, and the encoder is the identity. *)
Definition opaque : Reader :=
  {| ReadDir := fun _ => Err (mkError false "not a directory");
     detectMimeType := fun _ => "application/octet-stream";
     isTextFile := fun _ => false;
     EncodeToString := fun content => content |}.

End Resource.

Module Membership.

Import Filesystem.

(** The cleaned absolute path of a configured directory, when it has
    one. *)
Definition cleanedDir (fs : FileSystem) (dir : string) : option string :=
  match Abs fs (TrimSpace dir) with
  | Ok abs => Some (Clean abs)
  | Err _ => None
  end.


(** The path whose elements the membership test compares with the
    roots: the directory of the path when [os.Stat] finds a file that is
    not a directory, the path itself otherwise. *)
Definition testedPath (fs : FileSystem) (abs : string) : string :=
  match Stat fs abs with
  | Ok info => if IsDir info then abs else Dir abs
  | Err _ => abs
  end.

End Membership.
Import Membership.

(* ================================================================== *)
(** * Properties *)
(* ================================================================== *)

Import Command Filesystem Sandbox.

(** ** The library models on the examples of the Go documentation *)

Example Split_examples :
  Split "a,b,c" "," = ["a"; "b"; "c"]
  /\ Split "a man a plan a canal panama" " "
     = ["a"; "man"; "a"; "plan"; "a"; "canal"; "panama"]
  /\ Split "" "," = [""]
  /\ Split "ls," "," = ["ls"; ""].
Proof. repeat split; reflexivity. Qed.

Example TrimSpace_example :
  let tab := String (ascii_of_nat 9) "" in
  let nl := String (ascii_of_nat 10) "" in
  let cr := String (ascii_of_nat 13) "" in
  TrimSpace (" " ++ tab ++ nl ++ " Hello, Gophers " ++ nl ++ tab ++ cr ++ nl)
  = "Hello, Gophers".
Proof. reflexivity. Qed.

Example HasPrefix_examples :
  HasPrefix "Gopher" "Go" = true
  /\ HasPrefix "Gopher" "C" = false
  /\ HasPrefix "Gopher" "" = true
  /\ HasSuffix "Amigo" "go" = true
  /\ HasSuffix "Amigo" "Ami" = false
  /\ Contains "seafood" "foo" = true
  /\ Contains "seafood" "bar" = false
  /\ Contains "" "" = true.
Proof. repeat split; reflexivity. Qed.

Example Clean_examples :
  map Clean ["abc//def//ghi"; "abc/./def"; "abc/def/../../.."; "/abc/def/../../..";
             "abc/./../def"; "../../abc"; "/../abc"; ""; "/"; "abc/"]
  = ["abc/def/ghi"; "abc/def"; ".."; "/"; "def"; "../../abc"; "/abc"; "."; "/"; "abc"].
Proof. reflexivity. Qed.

Example Dir_examples :
  map Dir ["/foo/bar/baz.js"; "/foo/bar/baz"; "/foo/bar/baz/"; "/dirty//path///";
           "dev.txt"; "../todo.txt"; ".."; "."; "/"; ""]
  = ["/foo/bar"; "/foo/bar"; "/foo/bar/baz"; "/dirty/path";
     "."; ".."; "."; "."; "/"; "."].
Proof. reflexivity. Qed.

Example JoinPath_examples :
  JoinPath ["a"; "b/c"] = "a/b/c"
  /\ JoinPath ["a/b"; "../../../xyz"] = "../xyz"
  /\ JoinPath [""; ""] = ""
  /\ JoinPath ["a"; ""] = "a"
  /\ JoinPath ["/sandbox"; "/etc/passwd"] = "/sandbox/etc/passwd".
Proof. repeat split; reflexivity. Qed.

(** ** Strings *)

Lemma append_assoc' (a b c : string) : (a ++ b) ++ c = a ++ (b ++ c).
Proof. induction a as [|x a IH]; simpl; [reflexivity | now rewrite IH]. Qed.

Lemma HasPrefix_empty (s : string) : HasPrefix s "" = true.
Proof. destruct s; reflexivity. Qed.

Lemma HasPrefix_refl (s : string) : HasPrefix s s = true.
Proof.
  induction s as [|c s IH]; simpl; [reflexivity|].
  now rewrite Ascii.eqb_refl, IH.
Qed.

Lemma HasPrefix_app (p t : string) : HasPrefix (p ++ t) p = true.
Proof.
  induction p as [|c p IH]; simpl; [apply HasPrefix_empty|].
  now rewrite Ascii.eqb_refl, IH.
Qed.

Lemma HasPrefix_inv (s p : string) :
  HasPrefix s p = true -> exists t, s = p ++ t.
Proof.
  revert s; induction p as [|c p IH]; intros s H.
  - now exists s.
  - destruct s as [|d s]; simpl in H; [discriminate|].
    apply andb_true_iff in H as [Hc Hp].
    apply Ascii.eqb_eq in Hc; subst d.
    destruct (IH _ Hp) as [t ->]. now exists t.
Qed.

Lemma TrimLeftSpace_length (s : string) :
  (length (TrimLeftSpace s) <= length s)%nat.
Proof.
  induction s as [|c s IH]; simpl; [lia|].
  destruct (asciiSpace c); simpl; lia.
Qed.

Lemma TrimRightSpace_length (s : string) :
  (length (TrimRightSpace s) <= length s)%nat.
Proof.
  induction s as [|c s IH]; simpl; [lia|].
  destruct (TrimRightSpace s) as [|d t]; simpl in *.
  - destruct (asciiSpace c); simpl; lia.
  - lia.
Qed.

Lemma TrimSpace_length (s : string) : (length (TrimSpace s) <= length s)%nat.
Proof.
  unfold TrimSpace.
  pose proof (TrimRightSpace_length (TrimLeftSpace s)).
  pose proof (TrimLeftSpace_length s). lia.
Qed.

Lemma Split_nonempty (s : string) (sep : ascii) : Split s sep <> [].
Proof.
  destruct s as [|c s]; simpl; [discriminate|].
  destruct (Ascii.eqb c sep); [discriminate|].
  destruct (Split s sep); discriminate.
Qed.

Lemma Split_part_le (s : string) (sep : ascii) (part : string) :
  In part (Split s sep) -> (length part <= length s)%nat.
Proof.
  revert part; induction s as [|c s IH]; simpl; intros part H.
  - destruct H as [<-|[]]. simpl; lia.
  - destruct (Ascii.eqb c sep).
    + destruct H as [<-|H]; [simpl; lia|]. specialize (IH _ H). lia.
    + destruct (Split s sep) as [|h r] eqn:E.
      * destruct H as [<-|[]]. simpl. lia.
      * destruct H as [<-|H].
        -- simpl. specialize (IH h (or_introl eq_refl)). lia.
        -- specialize (IH part (or_intror H)). lia.
Qed.

(** A part of a string that contains the separator is strictly shorter
    than the string: the recursion of [isAllowedCommand] is on a smaller
    argument. *)
Lemma Split_part_lt (s : string) (sep : ascii) (part : string) :
  Contains s (String sep "") = true ->
  In part (Split s sep) -> (length part < length s)%nat.
Proof.
  revert part; induction s as [|c s IH]; simpl; intros part HC H.
  - discriminate.
  - destruct (Ascii.eqb c sep) eqn:Ec.
    + destruct H as [<-|H]; [simpl; lia|].
      apply Split_part_le in H. lia.
    + simpl in HC.
      destruct (Split s sep) as [|h r] eqn:E.
      * exfalso. now apply (Split_nonempty s sep).
      * destruct H as [<-|H].
        -- simpl. specialize (IH h HC (or_introl eq_refl)). lia.
        -- specialize (IH part HC (or_intror H)). lia.
Qed.

Lemma forallb_ext_In {A} (f g : A -> bool) (l : list A) :
  (forall x, In x l -> f x = g x) -> forallb f l = forallb g l.
Proof.
  induction l as [|a l IH]; simpl; intros H; [reflexivity|].
  rewrite (H a (or_introl eq_refl)), IH; [reflexivity|].
  intros x Hx. apply H. now right.
Qed.

(** ** The command allowlist *)

(** The result of [isAllowedCommand_fuel] does not depend on the fuel
    once it exceeds the length of the command: no call runs out. *)
Lemma isAllowedCommand_fuel_stable (allowed : list string) :
  forall n m command,
    (length command < n)%nat -> (length command < m)%nat ->
    isAllowedCommand_fuel n allowed command
    = isAllowedCommand_fuel m allowed command.
Proof.
  induction n as [|n IH]; intros m command Hn Hm; [lia|].
  destruct m as [|m]; [lia|]. simpl.
  destruct (matchesAllowed allowed command); [reflexivity|].
  destruct (Contains command "|") eqn:Hp.
  - apply forallb_ext_In. intros part Hin.
    pose proof (Split_part_lt _ _ _ Hp Hin).
    pose proof (TrimSpace_length part).
    apply IH; lia.
  - destruct (Contains command "&") eqn:Ha; [|reflexivity].
    apply forallb_ext_In. intros part Hin.
    pose proof (Split_part_lt _ _ _ Ha Hin).
    pose proof (TrimSpace_length part).
    apply IH; lia.
Qed.

(** [isAllowedCommand] satisfies the equation of the Go body, with the
    recursive calls at full depth. *)
Lemma isAllowedCommand_eq (allowed : list string) (command : string) :
  isAllowedCommand allowed command =
  if matchesAllowed allowed command then true
  else if Contains command "|" then
    forallb (fun part => isAllowedCommand allowed (TrimSpace part))
            (Split command "|")
  else if Contains command "&" then
    forallb (fun part => isAllowedCommand allowed (TrimSpace part))
            (Split command "&")
  else false.
Proof.
  unfold isAllowedCommand at 1. simpl.
  destruct (matchesAllowed allowed command); [reflexivity|].
  destruct (Contains command "|") eqn:Hp.
  - apply forallb_ext_In. intros part Hin.
    pose proof (Split_part_lt _ _ _ Hp Hin).
    pose proof (TrimSpace_length part).
    apply isAllowedCommand_fuel_stable; lia.
  - destruct (Contains command "&") eqn:Ha; [|reflexivity].
    apply forallb_ext_In. intros part Hin.
    pose proof (Split_part_lt _ _ _ Ha Hin).
    pose proof (TrimSpace_length part).
    apply isAllowedCommand_fuel_stable; lia.
Qed.

Lemma matchesAllowed_true (allowed : list string) (command : string) :
  matchesAllowed allowed command = true <->
  exists a, In a allowed /\ HasPrefix command a = true.
Proof. unfold matchesAllowed. apply existsb_exists. Qed.

Lemma validate_Approved (allowed : list string) (command : string) :
  validate allowed command = CmdApproved <->
  isAllowedCommand allowed command = true.
Proof.
  unfold validate. destruct (isAllowedCommand allowed command);
    split; intro H; try reflexivity; discriminate.
Qed.

Lemma validate_Rejected (allowed : list string) (command : string) :
  validate allowed command = CmdRejected NotAllowed <->
  isAllowedCommand allowed command = false.
Proof.
  unfold validate. destruct (isAllowedCommand allowed command);
    split; intro H; try reflexivity; discriminate.
Qed.





(** C2, as stated, fails: with the allowlist [ls], the command line
    [lsblk -a] is approved, not rejected, because [ls] is a string prefix
    of it. *)
Lemma lsblk_approved_by_ls :
  validate ["ls"] "lsblk -a" = CmdApproved
  /\ ~ (exists kind, validate ["ls"] "lsblk -a" = CmdRejected kind).
Proof.
  split; [reflexivity|]. intros [kind H]. vm_compute in H. discriminate.
Qed.

(** C2 (amended): an allowlist entry approves every command line of which
    it is a string prefix, whether or not it ends at a token boundary; and
    a command line without pipe and ampersand is approved only in this
    way. *)
Theorem validate_string_prefix (allowed : list string) (command : string) :
  (forall entry, In entry allowed -> HasPrefix command entry = true ->
     validate allowed command = CmdApproved)
  /\ (Contains command "|" = false -> Contains command "&" = false ->
      validate allowed command = CmdApproved ->
      exists entry, In entry allowed /\ HasPrefix command entry = true).
Proof.
  split.
  - intros entry Hin Hp. apply validate_Approved.
    rewrite isAllowedCommand_eq.
    replace (matchesAllowed allowed command) with true; [reflexivity|].
    symmetry. apply matchesAllowed_true. now exists entry.
  - intros Hpipe Hamp V. apply validate_Approved in V.
    rewrite isAllowedCommand_eq, Hpipe, Hamp in V.
    apply matchesAllowed_true.
    destruct (matchesAllowed allowed command); [reflexivity | discriminate].
Qed.

Lemma validate_string_prefix_witness :
  validate ["cat"; "ls"] "lsblk -a" = CmdApproved
  /\ exists entry, In entry ["cat"; "ls"] /\ HasPrefix "lsblk -a" entry = true.
Proof.
  pose proof (validate_string_prefix ["cat"; "ls"] "lsblk -a") as [H1 H2].
  assert (validate ["cat"; "ls"] "lsblk -a" = CmdApproved) as V
    by (apply (H1 "ls"); [simpl; tauto | reflexivity]).
  split; [exact V|].
  apply H2; [reflexivity | reflexivity | exact V].
Defined.

(** The earlier revision returns at the first prefix match as well. *)
Lemma isAllowedCommand_pipe_prefix_first :
  isAllowedCommand_pipe ["ls"] "ls | grep foo" = true
  /\ isAllowedCommand_pipe ["ls"] "grep foo" = false
  /\ isAllowedCommand_pipe ["ls"] "lsblk -a" = true.
Proof. repeat split; reflexivity. Qed.

Lemma HasPrefix_app_l (s t p : string) :
  HasPrefix s p = true -> HasPrefix (s ++ t) p = true.
Proof.
  intros H. apply HasPrefix_inv in H as [u ->].
  rewrite append_assoc'. apply HasPrefix_app.
Qed.

Lemma matchesAllowed_app (allowed : list string) (s t : string) :
  matchesAllowed allowed (s ++ t) = false -> matchesAllowed allowed s = false.
Proof.
  intros H. destruct (matchesAllowed allowed s) eqn:E; [|reflexivity].
  apply matchesAllowed_true in E as [a [Hin Hp]].
  assert (matchesAllowed allowed (s ++ t) = true) as C
    by (apply matchesAllowed_true; exists a; split;
        [exact Hin | now apply HasPrefix_app_l]).
  congruence.
Qed.

Lemma Split_head_prefix (s : string) (sep : ascii) :
  exists head rest t, Split s sep = head :: rest /\ s = head ++ t.
Proof.
  induction s as [|c s IH]; simpl.
  - now exists "", [], "".
  - destruct (Ascii.eqb c sep).
    + now exists "", (Split s sep), (String c s).
    + destruct IH as (head & rest & t & -> & Hs).
      exists (String c head), rest, t. split; [reflexivity|].
      simpl. now rewrite <- Hs.
Qed.

Lemma TrimLeftSpace_noLeadingSpace (s : string) :
  noLeadingSpace s = true -> TrimLeftSpace s = s.
Proof.
  destruct s as [|c s]; [reflexivity|]. simpl.
  now destruct (asciiSpace c).
Qed.

Lemma TrimRightSpace_prefix (s : string) :
  exists t, s = TrimRightSpace s ++ t.
Proof.
  induction s as [|c s [t IH]]; simpl; [now exists ""|].
  destruct (TrimRightSpace s) as [|d u].
  - destruct (asciiSpace c).
    + now exists (String c s).
    + exists s. reflexivity.
  - exists t. simpl in *. now rewrite <- IH.
Qed.

Lemma TrimRightSpace_noLeadingSpace (s : string) :
  noLeadingSpace s = true -> noLeadingSpace (TrimRightSpace s) = true.
Proof.
  destruct s as [|c s]; [reflexivity|]. simpl. intros H.
  destruct (TrimRightSpace s); [|exact H].
  destruct (asciiSpace c) eqn:E; [reflexivity|]. simpl. now rewrite E.
Qed.

Lemma noLeadingSpace_prefix (s t : string) :
  noLeadingSpace (s ++ t) = true -> noLeadingSpace s = true.
Proof. destruct s; [reflexivity | exact (fun H => H)]. Qed.

(** On a command line that does not start with white space the splits
    never approve anything: the first part of a split is a prefix of the
    line, so it is rejected whenever the line as a whole matched no
    allowlist entry.  The decision is that of the prefix match alone. *)
Lemma isAllowedCommand_prefix_only (allowed : list string) :
  forall n command,
    (length command < n)%nat ->
    noLeadingSpace command = true ->
    isAllowedCommand allowed command = matchesAllowed allowed command.
Proof.
  induction n as [|n IH]; intros command Hlen Hns; [lia|].
  rewrite isAllowedCommand_eq.
  destruct (matchesAllowed allowed command) eqn:Hm; [reflexivity|].
  assert (forall sep,
            Contains command (String sep "") = true ->
            forallb (fun part => isAllowedCommand allowed (TrimSpace part))
                    (Split command sep) = false) as Hsplit.
  { intros sep Hc.
    destruct (Split_head_prefix command sep) as (head & rest & t & HS & Hcmd).
    assert (In head (Split command sep)) as Hin by (rewrite HS; now left).
    pose proof (Split_part_lt _ _ _ Hc Hin) as Hlt.
    rewrite HS. cbn [forallb].
    assert (noLeadingSpace head = true) as Hh
      by (apply (noLeadingSpace_prefix head t); now rewrite <- Hcmd).
    unfold TrimSpace. rewrite (TrimLeftSpace_noLeadingSpace _ Hh).
    pose proof (TrimRightSpace_length head) as Hle.
    rewrite IH; [|lia | now apply TrimRightSpace_noLeadingSpace].
    destruct (TrimRightSpace_prefix head) as [u Hu].
    rewrite (matchesAllowed_app allowed (TrimRightSpace head) (u ++ t));
      [reflexivity|].
    now rewrite <- append_assoc', <- Hu, <- Hcmd. }
  destruct (Contains command "|") eqn:Hp; [now apply Hsplit|].
  destruct (Contains command "&") eqn:Ha; [now apply Hsplit | reflexivity].
Qed.

(** [countUsable] counts the entries that are not empty. *)
Lemma countUsable_filter (cmds : list string) :
  countUsable cmds
  = Z.of_nat (List.length (filter (fun cmd => negb (String.eqb cmd "")) cmds)).
Proof.
  unfold countUsable.
  assert (forall l z,
    fold_left (fun cnt cmd => if String.eqb cmd "" then (cnt - 1)%Z else cnt) l z
    = (z - Z.of_nat (List.length l)
       + Z.of_nat (List.length (filter (fun cmd => negb (String.eqb cmd "")) l)))%Z)
    as G.
  { induction l as [|c l IH]; intros z; simpl; [lia|].
    rewrite IH. destruct (String.eqb c ""); simpl; lia. }
  rewrite G. lia.
Qed.

Lemma countUsable_pos (cmds : list string) (entry : string) :
  In entry cmds -> entry <> "" -> (0 < countUsable cmds)%Z.
Proof.
  intros Hin Hne. rewrite countUsable_filter.
  assert (In entry (filter (fun cmd => negb (String.eqb cmd "")) cmds)) as F.
  { apply filter_In. split; [exact Hin|].
    apply negb_true_iff. now apply String.eqb_neq. }
  destruct (filter _ cmds); [destruct F | simpl; lia].
Qed.

Lemma Check_allowedCommands (readFile : string -> result string)
    (cc : CommandConfig) :
  allowedCommands (fst (Command.Check readFile cc)) = allowedCommands cc.
Proof.
  unfold Command.Check.
  destruct (countUsable (allowedCommands cc) <=? 0)%Z; [reflexivity|].
  destruct (negb (String.eqb (Command.PromptFile cc) "")); [|reflexivity].
  destruct (readFile (Command.PromptFile cc)); reflexivity.
Qed.

Lemma empty_entry_matches (allowed : list string) (command : string) :
  In "" allowed -> isAllowedCommand allowed command = true.
Proof.
  intros Hin. rewrite isAllowedCommand_eq.
  replace (matchesAllowed allowed command) with true; [reflexivity|].
  symmetry. apply matchesAllowed_true. exists "". split; [exact Hin|].
  apply HasPrefix_empty.
Qed.

(** C3: when the comma-separated [allowed_command] string has an empty
    entry and at least one entry that is not empty, loading the
    configuration does not fail for want of allowed commands (and does
    not fail at all when no prompt file is configured or the configured
    one can be read); the empty string stays in the allowlist, and
    [isAllowedCommand] then returns [true] for every command line. *)
Theorem empty_entry_allows_everything
    (readFile : string -> result string) (merged : CommandConfig) :
  In "" (Split (AllowedCommand merged) ",") ->
  (exists entry, In entry (Split (AllowedCommand merged) ",") /\ entry <> "") ->
  let loaded := LoadConfig readFile merged in
  snd loaded <> Some NoAllowedCommands
  /\ (Command.PromptFile merged = ""
      \/ (exists read, readFile (Command.PromptFile merged) = Ok read) ->
      snd loaded = None)
  /\ In "" (allowedCommands (fst loaded))
  /\ forall command, isAllowedCommand (allowedCommands (fst loaded)) command = true.
Proof.
  intros Hempty [entry [Hin Hne]] loaded.
  assert (allowedCommands (fst loaded) = Split (AllowedCommand merged) ",") as HA
    by (unfold loaded, LoadConfig; now rewrite Check_allowedCommands).
  pose proof (countUsable_pos _ _ Hin Hne) as Hpos.
  assert ((countUsable (Split (AllowedCommand merged) ",") <=? 0)%Z = false) as Hc
    by (apply Z.leb_gt; exact Hpos).
  repeat split.
  - unfold loaded, LoadConfig, Command.Check. simpl. rewrite Hc.
    destruct (negb (String.eqb (Command.PromptFile merged) "")); [|discriminate].
    destruct (readFile (Command.PromptFile merged)); discriminate.
  - intros Hprompt. unfold loaded, LoadConfig, Command.Check. simpl. rewrite Hc.
    destruct Hprompt as [-> | [read ->]]; [reflexivity|].
    destruct (negb (String.eqb (Command.PromptFile merged) "")); reflexivity.
  - rewrite HA. exact Hempty.
  - intros command. apply empty_entry_matches. rewrite HA. exact Hempty.
Qed.

Lemma empty_entry_allows_everything_witness :
  snd (LoadConfig (fun _ => Err (mkError true "no such file")) 
         (mkCommandConfig "" "" "ls,cat," [])) = None
  /\ isAllowedCommand
       (allowedCommands
          (fst (LoadConfig (fun _ => Err (mkError true "no such file"))
                  (mkCommandConfig "" "" "ls,cat," []))))
       "rm -rf /" = true.
Proof.
  pose proof (empty_entry_allows_everything
                (fun _ => Err (mkError true "no such file"))
                (mkCommandConfig "" "" "ls,cat," [])) as H.
  simpl in H.
  destruct H as (_ & H2 & _ & H4).
  - tauto.
  - exists "ls". split; [tauto | discriminate].
  - split; [apply H2; left; reflexivity | apply H4].
Defined.

(** ** Splitting and joining at the separator *)

Lemma Contains_cons (c sep : ascii) (s : string) :
  Contains (String c s) (String sep "")
  = Ascii.eqb c sep || Contains s (String sep "").
Proof. simpl. now rewrite HasPrefix_empty, andb_true_r. Qed.

Lemma Contains_app_sep (s t : string) (sep : ascii) :
  Contains (s ++ String sep t) (String sep "") = true.
Proof.
  induction s as [|c s IH].
  - simpl. now rewrite Ascii.eqb_refl, HasPrefix_empty.
  - change (String c s ++ String sep t) with (String c (s ++ String sep t)).
    rewrite Contains_cons, IH. apply orb_true_r.
Qed.

Lemma Split_nosep (e : string) (sep : ascii) :
  Contains e (String sep "") = false -> Split e sep = [e].
Proof.
  induction e as [|c e IH]; intros H; [reflexivity|].
  rewrite Contains_cons in H. apply orb_false_iff in H as [Hc He].
  simpl. rewrite Hc, (IH He). reflexivity.
Qed.

Lemma Split_app_sep (e t : string) (sep : ascii) :
  Contains e (String sep "") = false ->
  Split (e ++ String sep t) sep = e :: Split t sep.
Proof.
  induction e as [|c e IH]; intros H.
  - simpl. now rewrite Ascii.eqb_refl.
  - rewrite Contains_cons in H. apply orb_false_iff in H as [Hc He].
    simpl. rewrite Hc, (IH He). reflexivity.
Qed.

Lemma Split_snoc_sep (s : string) (sep : ascii) :
  Split (s ++ String sep "") sep = (Split s sep ++ [""])%list.
Proof.
  induction s as [|c s IH]; simpl.
  - now rewrite Ascii.eqb_refl.
  - destruct (Ascii.eqb c sep); rewrite IH; [reflexivity|].
    destruct (Split s sep) as [|h r] eqn:E; [now apply Split_nonempty in E|].
    reflexivity.
Qed.

Lemma Split_noSep (s : string) (sep : ascii) :
  Forall (fun e => Contains e (String sep "") = false) (Split s sep).
Proof.
  induction s as [|c s IH]; simpl.
  - constructor; [reflexivity | constructor].
  - destruct (Ascii.eqb c sep) eqn:Ec.
    + constructor; [reflexivity | exact IH].
    + destruct (Split s sep) as [|h r].
      { constructor; [|constructor]. now rewrite Contains_cons, Ec. }
      inversion IH as [|? ? Hh Hr]; subst.
      constructor; [|exact Hr].
      now rewrite Contains_cons, Ec, Hh.
Qed.

Lemma Join_cons (e e' : string) (rest : list string) (sep : string) :
  Join (e :: e' :: rest) sep = e ++ sep ++ Join (e' :: rest) sep.
Proof. reflexivity. Qed.

Lemma Split_Join (elems : list string) :
  Forall (fun e => Contains e "/" = false) elems -> elems <> [] ->
  Split (Join elems "/") "/" = elems.
Proof.
  induction elems as [|e rest IH]; intros F Hne; [congruence|].
  inversion F as [|? ? He Hrest]; subst.
  destruct rest as [|e' rest].
  - simpl. now apply Split_nosep.
  - rewrite Join_cons.
    change (e ++ "/" ++ Join (e' :: rest) "/")
      with (e ++ String "/" (Join (e' :: rest) "/")).
    rewrite (Split_app_sep _ _ _ He), IH; [reflexivity | exact Hrest | discriminate].
Qed.

Lemma elemOK_inv (e : string) :
  elemOK e = true ->
  e <> "" /\ e <> "." /\ e <> ".." /\ Contains e "/" = false.
Proof.
  unfold elemOK. intros H.
  repeat (apply andb_true_iff in H as [H ?]).
  repeat split;
    try (apply String.eqb_neq; now apply negb_true_iff);
    now apply negb_true_iff.
Qed.

Lemma elemOK_noSep (elems : list string) :
  Forall (fun e => elemOK e = true) elems ->
  Forall (fun e => Contains e "/" = false) elems.
Proof.
  intros F. eapply Forall_impl; [|exact F].
  intros e He. now apply elemOK_inv in He.
Qed.

Lemma Split_absPath (elems : list string) :
  Forall (fun e => elemOK e = true) elems ->
  Split (absPath elems) "/"
  = "" :: match elems with [] => [""] | _ => elems end.
Proof.
  intros F. unfold absPath.
  change ("/" ++ Join elems "/") with ("" ++ String "/" (Join elems "/")).
  rewrite Split_app_sep by reflexivity.
  destruct elems as [|e rest]; [reflexivity|].
  rewrite Split_Join; [reflexivity | now apply elemOK_noSep | discriminate].
Qed.

Lemma pathElems_absPath (elems : list string) :
  Forall (fun e => elemOK e = true) elems -> pathElems (absPath elems) = elems.
Proof.
  intros F. unfold pathElems. rewrite (Split_absPath _ F). simpl.
  destruct elems as [|e rest]; [reflexivity|].
  clear -F. induction F as [|x l Hx Hl IH]; [reflexivity|].
  simpl. apply elemOK_inv in Hx as (Hx & _).
  apply String.eqb_neq in Hx. rewrite Hx. simpl. now rewrite IH.
Qed.

Lemma pathElems_snoc_sep (s : string) : pathElems (s ++ "/") = pathElems s.
Proof.
  unfold pathElems. rewrite Split_snoc_sep, filter_app. simpl.
  apply app_nil_r.
Qed.

(** ** [filepath.Clean] on absolute paths *)

Lemma IsAbs_absPath (elems : list string) : IsAbs (absPath elems) = true.
Proof. unfold IsAbs, absPath. simpl. apply HasPrefix_empty. Qed.

Lemma Clean_rooted (path : string) :
  IsAbs path = true ->
  Clean path = absPath (cleanElems true (Split path "/")).
Proof.
  intros H. unfold Clean. rewrite H.
  destruct path; [discriminate | reflexivity].
Qed.

Lemma cleanStep_elemOK (rooted : bool) (out : list string) (dotdot : nat)
    (e : string) :
  elemOK e = true ->
  cleanStep rooted (out, dotdot) e = ((out ++ [e])%list, dotdot).
Proof.
  intros H. apply elemOK_inv in H as (H1 & H2 & H3 & _).
  apply String.eqb_neq in H1, H2, H3.
  unfold cleanStep. now rewrite H1, H2, H3.
Qed.

Lemma fold_cleanStep_elemOK (rooted : bool) (elems : list string) :
  Forall (fun e => elemOK e = true) elems ->
  forall out dotdot,
    fold_left (cleanStep rooted) elems (out, dotdot)
    = ((out ++ elems)%list, dotdot).
Proof.
  induction 1 as [|e elems He _ IH]; intros out dotdot; cbn [fold_left].
  - now rewrite app_nil_r.
  - rewrite (cleanStep_elemOK _ _ _ _ He), IH, <- app_assoc. reflexivity.
Qed.

Lemma Forall_removelast {A} (P : A -> Prop) (l : list A) :
  Forall P l -> Forall P (removelast l).
Proof.
  induction 1 as [|x l Hx Hl IH]; simpl; [constructor|].
  destruct l; [constructor | now constructor].
Qed.

Lemma fold_cleanStep_rooted (elems : list string) :
  Forall (fun e => Contains e "/" = false) elems ->
  forall out,
    Forall (fun e => elemOK e = true) out ->
    Forall (fun e => elemOK e = true)
           (fst (fold_left (cleanStep true) elems (out, 0%nat)))
    /\ snd (fold_left (cleanStep true) elems (out, 0%nat)) = 0%nat.
Proof.
  induction 1 as [|e elems He _ IH]; intros out Hout; cbn [fold_left];
    [now split|].
  unfold cleanStep at 2 4.
  destruct (String.eqb e "") eqn:E1; [now apply IH|].
  destruct (String.eqb e ".") eqn:E2; [now apply IH|].
  destruct (String.eqb e "..") eqn:E3.
  - destruct (0 <? List.length out)%nat; [|now apply IH].
    apply IH. now apply Forall_removelast.
  - apply IH. apply Forall_app. split; [exact Hout|].
    constructor; [|constructor].
    unfold elemOK. now rewrite E1, E2, E3, He.
Qed.

Lemma cleanElems_elemOK (path : string) :
  Forall (fun e => elemOK e = true) (cleanElems true (Split path "/")).
Proof.
  unfold cleanElems.
  apply (fold_cleanStep_rooted _ (Split_noSep path "/") []). constructor.
Qed.

Lemma Clean_absPath (elems : list string) :
  Forall (fun e => elemOK e = true) elems ->
  Clean (absPath elems) = absPath elems.
Proof.
  intros F. rewrite (Clean_rooted _ (IsAbs_absPath elems)).
  rewrite (Split_absPath _ F). f_equal. unfold cleanElems.
  destruct elems as [|e rest]; [reflexivity|].
  change (fold_left (cleanStep true) ("" :: e :: rest) ([], 0%nat))
    with (fold_left (cleanStep true) (e :: rest) ([], 0%nat)).
  now rewrite (fold_cleanStep_elemOK _ _ F).
Qed.

(** A clean absolute path is the path of its elements. *)
Lemma cleanAbs_absPath (path : string) :
  cleanAbs path = true <->
  exists elems, Forall (fun e => elemOK e = true) elems /\ path = absPath elems.
Proof.
  unfold cleanAbs. split.
  - intros H. apply andb_true_iff in H as [Ha Hc].
    apply String.eqb_eq in Hc.
    exists (cleanElems true (Split path "/")). split.
    + apply cleanElems_elemOK.
    + now rewrite <- (Clean_rooted _ Ha).
  - intros [elems [F ->]].
    rewrite IsAbs_absPath, (Clean_absPath _ F). apply String.eqb_refl.
Qed.

(** [Clean] of an absolute path is absolute and clean: [Clean] is
    idempotent on absolute paths. *)
Lemma cleanAbs_Clean (path : string) :
  IsAbs path = true -> cleanAbs (Clean path) = true.
Proof.
  intros H. apply cleanAbs_absPath.
  exists (cleanElems true (Split path "/")). split.
  - apply cleanElems_elemOK.
  - now apply Clean_rooted.
Qed.

Lemma IsAbs_app (p t : string) : IsAbs p = true -> IsAbs (p ++ t) = true.
Proof.
  unfold IsAbs. destruct p as [|c p]; [discriminate|]. simpl.
  now rewrite !HasPrefix_empty.
Qed.

(** [filepath.Abs] returns clean absolute paths, and returns such a path
    as it is. *)
Lemma Abs_cleanAbs (fs : FileSystem) (path abs : string) :
  wdAbsolute fs = true -> Abs fs path = Ok abs -> cleanAbs abs = true.
Proof.
  unfold wdAbsolute, Abs. intros Hwd H.
  destruct (IsAbs path) eqn:Hp.
  - injection H as <-. now apply cleanAbs_Clean.
  - destruct (Getwd fs) as [wd|e]; [|discriminate].
    injection H as <-. simpl.
    destruct wd as [|c wd]; [discriminate|]. simpl String.eqb. cbv iota.
    apply cleanAbs_Clean. now apply IsAbs_app.
Qed.

Lemma Abs_fixed (fs : FileSystem) (abs : string) :
  cleanAbs abs = true -> Abs fs abs = Ok abs.
Proof.
  unfold cleanAbs, Abs. intros H. apply andb_true_iff in H as [Ha Hc].
  apply String.eqb_eq in Hc. now rewrite Ha, Hc.
Qed.

(** ** Roots as prefixes, element by element *)

Lemma isPrefixOf_app (l m : list string) : isPrefixOf l (l ++ m) = true.
Proof.
  induction l as [|x l IH]; simpl; [reflexivity|].
  now rewrite String.eqb_refl, IH.
Qed.

Lemma isPrefixOf_inv (l1 l2 : list string) :
  isPrefixOf l1 l2 = true -> exists m, l2 = (l1 ++ m)%list.
Proof.
  revert l2; induction l1 as [|x l1 IH]; intros l2 H.
  - now exists l2.
  - destruct l2 as [|y l2]; simpl in H; [discriminate|].
    apply andb_true_iff in H as [Hx Hl]. apply String.eqb_eq in Hx; subst y.
    destruct (IH _ Hl) as [m ->]. now exists m.
Qed.



Lemma filter_elemOK (elems : list string) :
  Forall (fun e => elemOK e = true) elems ->
  filter (fun e => negb (String.eqb e "")) elems = elems.
Proof.
  induction 1 as [|e elems He _ IH]; simpl; [reflexivity|].
  apply elemOK_inv in He as (He & _). apply String.eqb_neq in He.
  now rewrite He, IH.
Qed.

Lemma Split_Join_app (elems : list string) (t : string) :
  Forall (fun e => Contains e "/" = false) elems -> elems <> [] ->
  Split (Join elems "/" ++ String "/" t) "/" = (elems ++ Split t "/")%list.
Proof.
  induction elems as [|e rest IH]; intros F Hne; [congruence|].
  inversion F as [|? ? He Hrest]; subst.
  destruct rest as [|e' rest].
  - simpl Join. now rewrite Split_app_sep.
  - rewrite Join_cons.
    change (e ++ "/" ++ Join (e' :: rest) "/")
      with (e ++ String "/" (Join (e' :: rest) "/")).
    rewrite append_assoc'.
    change (String "/" (Join (e' :: rest) "/") ++ String "/" t)
      with (String "/" (Join (e' :: rest) "/" ++ String "/" t)).
    rewrite (Split_app_sep _ _ _ He), IH; [reflexivity | exact Hrest | discriminate].
Qed.

(** A string that starts with a root -- a clean absolute path followed
    by a separator -- has the elements of the root as its first
    elements. *)
Lemma HasPrefix_under (elems : list string) (s : string) :
  Forall (fun e => elemOK e = true) elems ->
  HasPrefix s (absPath elems ++ "/") = true ->
  isPrefixOf elems (pathElems s) = true.
Proof.
  intros F H. destruct elems as [|e rest]; [reflexivity|].
  apply HasPrefix_inv in H as [t ->].
  unfold pathElems, absPath.
  rewrite !append_assoc'.
  change ("/" ++ Join (e :: rest) "/" ++ "/" ++ t)
    with ("" ++ String "/" (Join (e :: rest) "/" ++ String "/" t)).
  rewrite Split_app_sep by reflexivity.
  rewrite Split_Join_app; [|now apply elemOK_noSep | discriminate].
  cbn [filter String.eqb negb].
  rewrite filter_app, (filter_elemOK _ F). apply isPrefixOf_app.
Qed.

Lemma normalizedRoot_absPath (root : string) :
  normalizedRoot root = true ->
  exists elems,
    Forall (fun e => elemOK e = true) elems /\ root = absPath elems ++ "/".
Proof.
  unfold normalizedRoot. intros H. apply andb_true_iff in H as [Ha Hc].
  apply String.eqb_eq in Hc.
  exists (cleanElems true (Split root "/")). split.
  - apply cleanElems_elemOK.
  - now rewrite <- (Clean_rooted _ Ha).
Qed.

Lemma under_normalizedRoot (elems : list string) (path : string) :
  Forall (fun e => elemOK e = true) elems ->
  under (absPath elems ++ "/") path = isPrefixOf elems (pathElems path).
Proof.
  intros F. unfold under.
  now rewrite pathElems_snoc_sep, (pathElems_absPath _ F).
Qed.

(** ** [filepath.Dir] on clean absolute paths *)

Lemma splitDir_app (p e : string) :
  Contains e "/" = false -> splitDir (p ++ String "/" e) = p ++ "/".
Proof.
  intros He. induction p as [|c p IH].
  - simpl. now rewrite He.
  - change (String c p ++ String "/" e) with (String c (p ++ String "/" e)).
    cbn [splitDir]. now rewrite Contains_app_sep, IH.
Qed.

Lemma Join_snoc (l : list string) (e sep : string) :
  l <> [] -> Join (l ++ [e]) sep = Join l sep ++ sep ++ e.
Proof.
  induction l as [|x l IH]; intros Hne; [congruence|].
  destruct l as [|y l]; [reflexivity|].
  change ((x :: y :: l) ++ [e])%list with (x :: y :: (l ++ [e]))%list.
  rewrite !Join_cons.
  change (y :: (l ++ [e]))%list with ((y :: l) ++ [e])%list.
  rewrite IH by discriminate. now rewrite !append_assoc'.
Qed.

Lemma Clean_absPath_sep (elems : list string) :
  Forall (fun e => elemOK e = true) elems ->
  Clean (absPath elems ++ "/") = absPath elems.
Proof.
  intros F.
  rewrite Clean_rooted by (apply IsAbs_app, IsAbs_absPath).
  f_equal. rewrite Split_snoc_sep, (Split_absPath _ F).
  unfold cleanElems.
  destruct elems as [|e rest]; [reflexivity|].
  change (fold_left (cleanStep true) (("" :: e :: rest) ++ [""]) ([], 0%nat))
    with (fold_left (cleanStep true) ((e :: rest) ++ [""]) ([], 0%nat)).
  rewrite fold_left_app, (fold_cleanStep_elemOK _ _ F). reflexivity.
Qed.

Lemma Dir_absPath (elems : list string) :
  Forall (fun e => elemOK e = true) elems ->
  Dir (absPath elems) = absPath (removelast elems).
Proof.
  intros F. unfold Dir.
  destruct elems as [|x l] using rev_ind; [reflexivity|].
  apply Forall_app in F as [Fl Fx].
  inversion Fx as [|? ? Hx _]; subst.
  apply elemOK_inv in Hx as (_ & _ & _ & Hx).
  rewrite removelast_last.
  destruct l as [|y l].
  - change (absPath ([] ++ [x])) with ("" ++ String "/" x).
    rewrite (splitDir_app _ _ Hx). reflexivity.
  - unfold absPath at 1. rewrite Join_snoc by discriminate.
    change ("/" ++ Join (y :: l) "/" ++ "/" ++ x)
      with (absPath (y :: l) ++ String "/" x).
    rewrite (splitDir_app _ _ Hx). now apply Clean_absPath_sep.
Qed.

(** ** The membership test *)

Lemma isPathInAllowedDirs_cleanAbs (fs : FileSystem) (roots : list string)
    (abs : string) :
  cleanAbs abs = true ->
  isPathInAllowedDirs fs roots abs
  = existsb (fun root => HasPrefix (candidate fs abs) root) roots.
Proof.
  intros H. unfold isPathInAllowedDirs. now rewrite (Abs_fixed fs _ H).
Qed.



(** ** The path sandbox *)













(** ** Loading the allowed roots *)

Lemma normalizeDirs_ok (fs : FileSystem) (dirs : list string) :
  forall normalized out,
    normalizeDirs fs dirs normalized = inr out ->
    exists news,
      out = (normalized ++ news)%list
      /\ map (rootOf fs) dirs = map Some news.
Proof.
  induction dirs as [|dir rest IH]; intros normalized out H; simpl in H.
  - injection H as <-. exists []. now rewrite app_nil_r.
  - destruct (Abs fs (TrimSpace dir)) as [abs|e] eqn:Ha; [|discriminate].
    destruct (Stat fs abs) as [info|e] eqn:Hs; [|discriminate].
    destruct (IsDir info) eqn:Hd; [|discriminate]. cbn [negb] in H.
    destruct (IH _ _ H) as [news [-> Hmap]].
    exists ((Clean abs ++ Separator)%string :: news).
    split; [now rewrite <- app_assoc|].
    cbn [map]. unfold rootOf at 1. now rewrite Ha, Hs, Hd, Hmap.
Qed.


Lemma Check_roots (fs : FileSystem) (fc : FileSystemConfig) :
  snd (Filesystem.Check fs fc) = None ->
  normalizeDirs fs (allowedDirs fc) []
  = inr (allowedDirs (fst (Filesystem.Check fs fc))).
Proof.
  unfold Filesystem.Check.
  destruct (normalizeDirs fs (allowedDirs fc) []) as [e|normalized];
    [discriminate|].
  destruct (negb (String.eqb (Filesystem.PromptFile fc) "")); [|reflexivity].
  destruct (ReadFile fs (Filesystem.PromptFile fc)); [reflexivity|discriminate].
Qed.




(** C10: [NewFileSystemConfig] does not look at its argument: whatever
    the directory, [AllowedDir], the allowed roots and [CachePath] are
    the temporary directory of the operating system; so they are in the
    configuration with which [NewFilesystemServer] starts. *)
Theorem NewFileSystemConfig_ignores_path (allowedDirsDefault : string) :
  (forall path,
      NewFileSystemConfig allowedDirsDefault path
      = {| Filesystem.PromptFile := "";
           Filesystem.prompt := "";
           AllowedDir := allowedDirsDefault;
           allowedDirs := [allowedDirsDefault];
           CachePath := allowedDirsDefault |})
  /\ (forall BasePath,
      allowedDirs (NewFilesystemServer_config allowedDirsDefault BasePath)
      = [allowedDirsDefault]
      /\ CachePath (NewFilesystemServer_config allowedDirsDefault BasePath)
         = allowedDirsDefault).
Proof. split; [reflexivity | split; reflexivity]. Qed.

(** ** The handlers *)

Import Handlers.

Section Deny.

Context {W : Type}.
Variable machine : Machine W.
Variable w : W.

Lemma handleExecuteCommand_deny (allowed : list string) (configPath : string)
    (args : Arguments) (command : string) :
  stringArg args "command" = Some command ->
  isAllowedCommand allowed command = false ->
  run (handleExecuteCommand machine allowed configPath args) w
  = (NewToolResultError ("Error: Command '" ++ command ++ "' is not allowed"),
     (w, [Log ("If you want to allow this command, add it to " ++ configPath)])).
Proof.
  intros Ha Hd. unfold run, handleExecuteCommand. now rewrite Ha, Hd.
Qed.

(** A process is spawned only for the command of the request, and only
    once the guard has allowed it. *)
Lemma handleExecuteCommand_spawn (allowed : list string) (configPath : string)
    (args : Arguments) (command : string) :
  In (Spawn command)
     (snd (snd (run (handleExecuteCommand machine allowed configPath args) w))) ->
  stringArg args "command" = Some command
  /\ isAllowedCommand allowed command = true.
Proof.
  unfold run, handleExecuteCommand.
  destruct (stringArg args "command") as [c|]; [|intros []].
  destruct (isAllowedCommand allowed c) eqn:Hc; cbn [negb].
  - unfold bind, doExecCommand, act. cbn [fst snd].
    destruct (ExecCommand machine c w) as [[output|err] w']; cbn;
      intros [H|[]]; injection H as <-; now split.
  - cbn. intros [H|[]]. discriminate.
Qed.

Lemma handleWriteFile_deny (fc : FileSystemConfig) (args : Arguments)
    (path content : string) (kind : PathRejection) :
  stringArg args "path" = Some path ->
  stringArg args "content" = Some content ->
  validatePath (files machine w) (allowedDirs fc) (JoinPath [CachePath fc; path])
  = Rejected kind ->
  run (handleWriteFile machine fc args) w
  = ({| ResultContent := [TextContent ("Error: " ++ rejectionText kind)];
        IsError := true |}, (w, [])).
Proof.
  intros Hp Hc Hv. unfold run, handleWriteFile, bind, readFS.
  rewrite Hp, Hc. cbn [fst]. now rewrite Hv.
Qed.

Lemma handleCreateDirectory_deny (fc : FileSystemConfig) (args : Arguments)
    (path : string) (kind : PathRejection) :
  stringArg args "path" = Some path ->
  validatePath (files machine w) (allowedDirs fc) path = Rejected kind ->
  run (handleCreateDirectory machine fc args) w
  = (CallToolResultErr ("Error: " ++ rejectionText kind), (w, [])).
Proof.
  intros Hp Hv. unfold run, handleCreateDirectory, bind, readFS.
  rewrite Hp. cbn [fst]. now rewrite Hv.
Qed.

Lemma handleMoveFile_deny_source (fc : FileSystemConfig) (args : Arguments)
    (source destination : string) (kind : PathRejection) :
  stringArg args "source" = Some source ->
  stringArg args "destination" = Some destination ->
  validatePath (files machine w) (allowedDirs fc) source = Rejected kind ->
  run (handleMoveFile machine fc args) w
  = (CallToolResultErr ("Error with source path: " ++ rejectionText kind), (w, [])).
Proof.
  intros Hs Hd Hv. unfold run, handleMoveFile, bind, readFS.
  rewrite Hs, Hd. cbn [fst]. now rewrite Hv.
Qed.

Lemma handleMoveFile_deny_destination (fc : FileSystemConfig) (args : Arguments)
    (source destination : string) (kind : PathRejection) :
  stringArg args "source" = Some source ->
  stringArg args "destination" = Some destination ->
  validatePath (files machine w) (allowedDirs fc) destination = Rejected kind ->
  refused w (run (handleMoveFile machine fc args) w).
Proof.
  intros Hs Hd Hv. unfold run, handleMoveFile, bind, readFS.
  rewrite Hs, Hd. cbn [fst].
  destruct (validatePath (files machine w) (allowedDirs fc) source)
    as [validSource|k]; [|now repeat split].
  destruct (match Stat (files machine w) validSource with
            | Ok _ => false
            | Err err => IsNotExist err
            end); [now repeat split|].
  rewrite Hv. now repeat split.
Qed.

End Deny.

(** C9: a handler that is denied performs nothing of what was asked.
    When the command guard rejects the command, [handleExecuteCommand]
    returns an error result, leaves the machine as it is and only writes
    a log line: no process is spawned -- a process is spawned only for a
    command that the guard has allowed.  When [validatePath] rejects the
    path of [handleWriteFile] or [handleCreateDirectory], or the source
    or the destination of [handleMoveFile], the handler returns an error
    result that carries the rejection, and no directory is created, no
    file written and nothing moved. *)
Theorem deny_performs_nothing {W : Type} (machine : Machine W) (w : W) :
  (forall allowed configPath args command,
      stringArg args "command" = Some command ->
      validate allowed command = CmdRejected NotAllowed ->
      refused w (run (handleExecuteCommand machine allowed configPath args) w))
  /\ (forall allowed configPath args command,
      In (Spawn command)
         (snd (snd (run (handleExecuteCommand machine allowed configPath args) w))) ->
      validate allowed command = CmdApproved)
  /\ (forall fc args path content kind,
      stringArg args "path" = Some path ->
      stringArg args "content" = Some content ->
      validatePath (files machine w) (allowedDirs fc)
                   (JoinPath [CachePath fc; path]) = Rejected kind ->
      refused w (run (handleWriteFile machine fc args) w))
  /\ (forall fc args path kind,
      stringArg args "path" = Some path ->
      validatePath (files machine w) (allowedDirs fc) path = Rejected kind ->
      refused w (run (handleCreateDirectory machine fc args) w))
  /\ (forall fc args source destination kind,
      stringArg args "source" = Some source ->
      stringArg args "destination" = Some destination ->
      validatePath (files machine w) (allowedDirs fc) source = Rejected kind
      \/ validatePath (files machine w) (allowedDirs fc) destination
         = Rejected kind ->
      refused w (run (handleMoveFile machine fc args) w)).
Proof.
  split; [|split; [|split; [|split]]].
  - intros allowed configPath args command Ha Hv.
    apply validate_Rejected in Hv.
    rewrite (handleExecuteCommand_deny _ _ _ _ _ _ Ha Hv). now repeat split.
  - intros allowed configPath args command Hin.
    apply validate_Approved.
    now apply (handleExecuteCommand_spawn machine w allowed configPath args).
  - intros fc args path content kind Hp Hc Hv.
    rewrite (handleWriteFile_deny _ _ _ _ _ _ _ Hp Hc Hv). now repeat split.
  - intros fc args path kind Hp Hv.
    rewrite (handleCreateDirectory_deny _ _ _ _ _ _ Hp Hv). now repeat split.
  - intros fc args source destination kind Hs Hd [Hv|Hv].
    + rewrite (handleMoveFile_deny_source _ _ _ _ _ _ _ Hs Hd Hv).
      now repeat split.
    + exact (handleMoveFile_deny_destination _ _ _ _ _ _ _ Hs Hd Hv).
Qed.

Lemma deny_performs_nothing_witness :
  refused Sample.tree
    (run (handleExecuteCommand (MemFS.machine "/") ["ls"; "cat"]
            "/home/.moling/config/config.json"
            [("command", AnyString "rm -rf /")])
         Sample.tree)
  /\ refused Sample.tree
       (run (handleWriteFile (MemFS.machine "/")
               (mkFileSystemConfig "" "" "/sandbox" Sample.roots "/sandbox")
               [("path", AnyString "link/stolen.txt");
                ("content", AnyString "data")])
            Sample.tree).
Proof.
  destruct (deny_performs_nothing (MemFS.machine "/") Sample.tree)
    as (Hcmd & _ & Hwrite & _).
  split.
  - apply (Hcmd ["ls"; "cat"] _ _ "rm -rf /"); reflexivity.
  - apply (Hwrite _ _ "link/stolen.txt" "data" ParentOutsideAllowedRoots);
      reflexivity.
Defined.

(** ** Further properties *)



(** X2: the roots of a server that loads no configuration are those of
    [NewFileSystemConfig], which [FileSystemConfig.Check] has not seen:
    the temporary directory as the operating system names it.  When that
    name has no separator at its end, as in [/tmp], the membership test
    against it is a plain string prefix test, and a sibling such as
    [/tmpfoo/x] passes it. *)
Theorem default_root_is_not_normalized (fs : FileSystem) (BasePath : string) :
  allowedDirs (NewFilesystemServer_config "/tmp" BasePath) = ["/tmp"]
  /\ normalizedRoot "/tmp" = false
  /\ under "/tmp" "/tmpfoo/x" = false
  /\ isPathInAllowedDirs fs
       (allowedDirs (NewFilesystemServer_config "/tmp" BasePath)) "/tmpfoo/x"
     = true.
Proof.
  repeat split.
  change (allowedDirs (NewFilesystemServer_config "/tmp" BasePath)) with ["/tmp"].
  unfold isPathInAllowedDirs.
  change (Abs fs "/tmpfoo/x") with (Ok "/tmpfoo/x").
  unfold candidate.
  change (HasSuffix "/tmpfoo/x" Separator) with false. cbn [negb].
  destruct (Stat fs "/tmpfoo/x") as [[sz [|]]|e]; reflexivity.
Qed.

(** ** What an approval guarantees *)





Lemma isPathInAllowedDirs_more_roots (fs : FileSystem)
    (roots roots' : list string) (path : string) :
  incl roots roots' ->
  isPathInAllowedDirs fs roots path = true ->
  isPathInAllowedDirs fs roots' path = true.
Proof.
  unfold isPathInAllowedDirs. intros Hincl.
  destruct (Abs fs path) as [abs|e]; [|discriminate].
  rewrite !existsb_exists. intros [root [Hin Hp]].
  exists root. split; [now apply Hincl | exact Hp].
Qed.

(** X4: allowing more never revokes an approval.  A request that
    [validatePath] approves under some roots is approved, with the same
    canonical path, under any list of roots that contains them. *)
Theorem validatePath_more_roots (fs : FileSystem) (roots roots' : list string)
    (path canonical : string) :
  incl roots roots' ->
  validatePath fs roots path = Approved canonical ->
  validatePath fs roots' path = Approved canonical.
Proof.
  intros Hincl. unfold validatePath.
  destruct (Abs fs path) as [abs|e]; [|discriminate].
  destruct (isPathInAllowedDirs fs roots abs) eqn:Hm; [|discriminate].
  rewrite (isPathInAllowedDirs_more_roots _ _ _ _ Hincl Hm). cbn [negb].
  destruct (EvalSymlinks fs abs) as [real|e].
  - destruct (isPathInAllowedDirs fs roots real) eqn:Hr; [|discriminate].
    now rewrite (isPathInAllowedDirs_more_roots _ _ _ _ Hincl Hr).
  - destruct (IsNotExist e); [|discriminate]. cbn [negb].
    destruct (EvalSymlinks fs (Dir abs)) as [realParent|e']; [|discriminate].
    destruct (isPathInAllowedDirs fs roots realParent) eqn:Hp; [|discriminate].
    now rewrite (isPathInAllowedDirs_more_roots _ _ _ _ Hincl Hp).
Qed.

Lemma validatePath_more_roots_witness :
  validatePath Sample.fs ["/outside/"; "/sandbox/"] "/sandbox/a/f.txt"
  = Approved "/sandbox/a/f.txt".
Proof.
  apply (validatePath_more_roots Sample.fs Sample.roots);
    [intros r [<-|[]]; simpl; tauto | reflexivity].
Defined.

(** ** More on the command allowlist *)

Lemma matchesAllowed_more_entries (allowed allowed' : list string)
    (command : string) :
  incl allowed allowed' ->
  matchesAllowed allowed command = true ->
  matchesAllowed allowed' command = true.
Proof.
  intros Hincl H. apply matchesAllowed_true in H as [a [Hin Hp]].
  apply matchesAllowed_true. exists a. split; [now apply Hincl | exact Hp].
Qed.

Lemma forallb_impl_In {A} (f g : A -> bool) (l : list A) :
  (forall x, In x l -> f x = true -> g x = true) ->
  forallb f l = true -> forallb g l = true.
Proof.
  rewrite !forallb_forall. intros H Hf x Hx. apply H; [exact Hx | now apply Hf].
Qed.

Lemma isAllowedCommand_more_entries_len (allowed allowed' : list string) :
  incl allowed allowed' ->
  forall n command,
    (length command < n)%nat ->
    isAllowedCommand allowed command = true ->
    isAllowedCommand allowed' command = true.
Proof.
  intros Hincl. induction n as [|n IH]; intros command Hlen; [lia|].
  rewrite !isAllowedCommand_eq.
  destruct (matchesAllowed allowed command) eqn:Hm.
  - now rewrite (matchesAllowed_more_entries _ _ _ Hincl Hm).
  - destruct (matchesAllowed allowed' command); [reflexivity|].
    destruct (Contains command "|") eqn:Hp.
    + apply forallb_impl_In. intros part Hin.
      pose proof (Split_part_lt _ _ _ Hp Hin).
      pose proof (TrimSpace_length part). apply IH. lia.
    + destruct (Contains command "&") eqn:Ha; [|discriminate].
      apply forallb_impl_In. intros part Hin.
      pose proof (Split_part_lt _ _ _ Ha Hin).
      pose proof (TrimSpace_length part). apply IH. lia.
Qed.

(** X5: allowing more commands never revokes an approval: a command
    line approved under an allowlist is approved under every allowlist
    that contains its entries. *)
Theorem isAllowedCommand_more_entries (allowed allowed' : list string)
    (command : string) :
  incl allowed allowed' ->
  isAllowedCommand allowed command = true ->
  isAllowedCommand allowed' command = true.
Proof.
  intros Hincl.
  apply (isAllowedCommand_more_entries_len _ _ Hincl (S (length command))). lia.
Qed.

Lemma isAllowedCommand_more_entries_witness :
  isAllowedCommand ["cat"; "ls"; "grep"] " ls | grep foo" = true.
Proof.
  apply (isAllowedCommand_more_entries ["ls"; "grep"]);
    [intros a [<-|[<-|[]]]; simpl; tauto | reflexivity].
Defined.









(** X7: [CommandConfig.Check] returns the error "no allowed commands
    specified" exactly when every entry of the list is empty -- the
    empty list included. *)
Theorem Check_NoAllowedCommands (readFile : string -> result string)
    (cc : CommandConfig) :
  snd (Command.Check readFile cc) = Some NoAllowedCommands
  <-> Forall (fun cmd => cmd = "") (allowedCommands cc).
Proof.
  assert ((countUsable (allowedCommands cc) <=? 0)%Z = true
          <-> Forall (fun cmd => cmd = "") (allowedCommands cc)) as Hcount.
  { rewrite countUsable_filter, Z.leb_le. split.
    - intros H. apply Forall_forall. intros cmd Hin.
      destruct (String.eqb cmd "") eqn:E; [now apply String.eqb_eq|].
      assert (In cmd (filter (fun c => negb (String.eqb c "")) (allowedCommands cc)))
        as F by (apply filter_In; split; [exact Hin | now rewrite E]).
      destruct (filter _ (allowedCommands cc)); [destruct F | simpl in H; lia].
    - intros F.
      replace (filter (fun c => negb (String.eqb c "")) (allowedCommands cc))
        with (@nil string); [simpl; lia|].
      symmetry. induction F as [|c l Hc _ IH]; [reflexivity|].
      subst c. simpl. exact IH. }
  rewrite <- Hcount. unfold Command.Check.
  destruct (countUsable (allowedCommands cc) <=? 0)%Z.
  - split; reflexivity.
  - split; [|discriminate].
    destruct (negb (String.eqb (Command.PromptFile cc) "")); [|discriminate].
    destruct (readFile (Command.PromptFile cc)); discriminate.
Qed.

(** X8: the revision of [isAllowedCommand] that also splits at [&]
    approves every command line that the earlier revision, which only
    splits at [|], approves; and it approves lines that the earlier one
    rejects. *)
Theorem isAllowedCommand_pipe_included (allowed : list string) (command : string) :
  (isAllowedCommand_pipe allowed command = true ->
   isAllowedCommand allowed command = true)
  /\ isAllowedCommand_pipe ["ls"; "cat"] " ls & cat f" = false
  /\ isAllowedCommand ["ls"; "cat"] " ls & cat f" = true.
Proof.
  split; [|split; reflexivity].
  unfold isAllowedCommand_pipe, isAllowedCommand.
  assert (forall n c,
            isAllowedCommand_pipe_fuel n allowed c = true ->
            forall m, (length c < m)%nat ->
                      isAllowedCommand_fuel m allowed c = true) as G.
  { induction n as [|n IH]; intros c H m Hm; [discriminate|].
    destruct m as [|m]; [lia|]. simpl in *.
    destruct (matchesAllowed allowed c); [reflexivity|].
    destruct (Contains c "|") eqn:Hp; [|discriminate].
    revert H. apply forallb_impl_In. intros part Hin Hpart.
    pose proof (Split_part_lt _ _ _ Hp Hin).
    pose proof (TrimSpace_length part).
    apply (IH _ Hpart). lia. }
  intros H. apply (G _ _ H). lia.
Qed.

(** ** The membership test, path element by path element *)

Lemma substring_all (s : string) : substring 0 (length s) s = s.
Proof. induction s as [|c s IH]; simpl; [reflexivity | now rewrite IH]. Qed.

Lemma substring_split (n : nat) (s : string) :
  (n <= length s)%nat ->
  s = substring 0 n s ++ substring n (length s - n) s.
Proof.
  revert s; induction n as [|n IH]; intros s Hn.
  - rewrite Nat.sub_0_r, substring_all. now destruct s.
  - destruct s as [|c s]; [simpl in Hn; lia|]. simpl in *.
    rewrite <- IH by lia. reflexivity.
Qed.

Lemma HasSuffix_inv (s suffix : string) :
  HasSuffix s suffix = true -> exists t, s = t ++ suffix.
Proof.
  unfold HasSuffix. intros H. apply andb_true_iff in H as [Hl He].
  apply Nat.leb_le in Hl. apply String.eqb_eq in He.
  exists (substring 0 (length s - length suffix) s).
  rewrite (substring_split (length s - length suffix) s) at 1 by lia.
  replace (length s - (length s - length suffix))%nat with (length suffix) by lia.
  now rewrite He.
Qed.

Lemma absPath_no_trailing_sep (elems : list string) :
  Forall (fun e => elemOK e = true) elems -> elems <> [] ->
  HasSuffix (absPath elems) "/" = false.
Proof.
  intros F Hne. destruct (HasSuffix (absPath elems) "/") eqn:H; [|reflexivity].
  apply HasSuffix_inv in H as [t Ht].
  assert (pathElems (absPath elems) = elems) as P1 by now apply pathElems_absPath.
  pose proof (Split_absPath _ F) as S1.
  rewrite Ht, Split_snoc_sep in S1.
  destruct elems as [|e rest]; [congruence|].
  assert (last ("" :: e :: rest) "x" = "") as L
    by (rewrite <- S1; apply last_last).
  assert (In (last (e :: rest) "x") (e :: rest)) as Hin.
  { destruct (exists_last (l := e :: rest) ltac:(discriminate)) as [l' [a Hl]].
    rewrite Hl, last_last. apply in_or_app. right. now left. }
  change (last ("" :: e :: rest) "x") with (last (e :: rest) "x") in L.
  rewrite L in Hin. rewrite Forall_forall in F. specialize (F _ Hin).
  discriminate.
Qed.

Lemma Join_app (l m : list string) (sep : string) :
  l <> [] -> m <> [] ->
  Join (l ++ m) sep = Join l sep ++ sep ++ Join m sep.
Proof.
  induction l as [|x l IH]; intros Hl Hm; [congruence|].
  destruct l as [|y l].
  - destruct m as [|z m]; [congruence | reflexivity].
  - change ((x :: y :: l) ++ m)%list with (x :: y :: (l ++ m))%list.
    rewrite !Join_cons.
    change (y :: (l ++ m))%list with ((y :: l) ++ m)%list.
    rewrite IH by (discriminate || assumption).
    now rewrite !append_assoc'.
Qed.

Lemma HasPrefix_absPath (rel el : list string) :
  Forall (fun e => elemOK e = true) rel ->
  Forall (fun e => elemOK e = true) el ->
  rel <> [] ->
  HasPrefix (absPath el ++ "/") (absPath rel ++ "/") = isPrefixOf rel el.
Proof.
  intros Fr Fe Hne.
  destruct (isPrefixOf rel el) eqn:P.
  - apply isPrefixOf_inv in P as [m ->].
    destruct m as [|x m].
    + rewrite app_nil_r. apply HasPrefix_refl.
    + assert (absPath (rel ++ x :: m) ++ "/"
              = (absPath rel ++ "/") ++ (Join (x :: m) "/" ++ "/")) as E.
      { unfold absPath. rewrite Join_app by (assumption || discriminate).
        cbn [append]. now rewrite !append_assoc'. }
      rewrite E. apply HasPrefix_app.
  - destruct (HasPrefix (absPath el ++ "/") (absPath rel ++ "/")) eqn:H;
      [|reflexivity].
    apply (HasPrefix_under _ _ Fr) in H.
    rewrite pathElems_snoc_sep, (pathElems_absPath _ Fe) in H. congruence.
Qed.

Lemma existsb_ext_In {A} (f g : A -> bool) (l : list A) :
  (forall x, In x l -> f x = g x) -> existsb f l = existsb g l.
Proof.
  induction l as [|a l IH]; simpl; intros H; [reflexivity|].
  rewrite (H a (or_introl eq_refl)), IH; [reflexivity|].
  intros x Hx. apply H. now right.
Qed.

Lemma candidate_root (fs : FileSystem) (rel el : list string) :
  Forall (fun e => elemOK e = true) rel ->
  Forall (fun e => elemOK e = true) el ->
  rel <> [] ->
  HasPrefix (candidate fs (absPath el)) (absPath rel ++ "/")
  = isPrefixOf rel (pathElems (testedPath fs (absPath el))).
Proof.
  intros Fr Fe Hne. unfold candidate, testedPath, Separator.
  destruct el as [|e rest].
  - change (HasSuffix (absPath []) "/") with true. cbn [negb].
    assert (isPrefixOf rel [] = false) as P by (destruct rel; [congruence | reflexivity]).
    replace (pathElems _) with (@nil string).
    + rewrite P. destruct rel as [|x r]; [congruence|].
      unfold absPath. cbn [append HasPrefix].
      destruct r; simpl;
        destruct x; simpl; rewrite ?andb_false_r; reflexivity.
    + destruct (Stat fs (absPath [])) as [[sz [|]]|err]; reflexivity.
  - rewrite absPath_no_trailing_sep by (assumption || discriminate). cbn [negb].
    destruct (Stat fs (absPath (e :: rest))) as [[sz [|]]|err]; cbn [IsDir negb].
    + now rewrite (HasPrefix_absPath _ _ Fr Fe Hne), (pathElems_absPath _ Fe).
    + rewrite (Dir_absPath _ Fe).
      rewrite (HasPrefix_absPath _ _ Fr (Forall_removelast _ _ Fe) Hne).
      now rewrite pathElems_absPath by now apply Forall_removelast.
    + now rewrite (HasPrefix_absPath _ _ Fr Fe Hne), (pathElems_absPath _ Fe).
Qed.

(** X9: the membership test is a comparison of path elements.  For a
    clean absolute path and roots as [Check] stores them -- the root
    stored for the directory [/] apart -- [isPathInAllowedDirs] holds
    exactly when the elements of some root are the first elements of the
    path, or of its directory when the path is that of a file that is
    not a directory. *)
Theorem isPathInAllowedDirs_by_elements (fs : FileSystem) (roots : list string)
    (abs : string) :
  cleanAbs abs = true ->
  forallb normalizedRoot roots = true ->
  ~ In "//" roots ->
  isPathInAllowedDirs fs roots abs
  = existsb (fun root => under root (testedPath fs abs)) roots.
Proof.
  intros Hc Hn Hs.
  rewrite (isPathInAllowedDirs_cleanAbs _ _ _ Hc).
  apply cleanAbs_absPath in Hc as [el [Fe ->]].
  apply existsb_ext_In. intros root Hin.
  rewrite forallb_forall in Hn. specialize (Hn _ Hin).
  apply normalizedRoot_absPath in Hn as [rel [Fr ->]].
  rewrite (under_normalizedRoot _ _ Fr).
  apply candidate_root; try assumption.
  intros ->. now apply Hs.
Qed.

Lemma isPathInAllowedDirs_by_elements_witness :
  isPathInAllowedDirs Sample.fs Sample.roots "/sandbox/a/f.txt"
  = existsb (fun root => under root (testedPath Sample.fs "/sandbox/a/f.txt"))
            Sample.roots.
Proof.
  apply (isPathInAllowedDirs_by_elements Sample.fs Sample.roots);
    [reflexivity | reflexivity | intros [H|[]]; discriminate].
Defined.

Lemma absPath_no_double_sep (elems : list string) :
  Forall (fun e => elemOK e = true) elems -> elems <> [] ->
  HasPrefix (absPath elems ++ "/") "//" = false.
Proof.
  intros F Hne. destruct elems as [|e rest]; [congruence|].
  inversion F as [|? ? He _]; subst.
  apply elemOK_inv in He as (He & _ & _ & Hs).
  destruct e as [|c e]; [congruence|].
  rewrite Contains_cons in Hs. apply orb_false_iff in Hs as [Hc _].
  unfold absPath. destruct rest; cbn [Join append HasPrefix];
    now rewrite Hc, andb_false_r.
Qed.

(** X10: configuring the directory [/] does not allow everything.  The
    root that [Check] stores for it is [//], and against that root the
    membership test holds for no directory and for no path that does not
    exist: only for a file that is not a directory and lies directly in
    [/]. *)
Theorem slash_root_allows_only_top_files (fs : FileSystem) (abs : string) :
  (forall info, Stat fs "/" = Ok info -> IsDir info = true ->
     rootOf fs "/" = Some "//")
  /\ (cleanAbs abs = true ->
      isPathInAllowedDirs fs ["//"] abs = true ->
      exists info,
        Stat fs abs = Ok info /\ IsDir info = false /\ Dir abs = "/").
Proof.
  split.
  - intros info Hs Hd. unfold rootOf.
    change (Abs fs (TrimSpace "/")) with (Ok "/"). cbv beta iota.
    now rewrite Hs, Hd.
  - intros Hc Hm.
    rewrite (isPathInAllowedDirs_cleanAbs _ _ _ Hc) in Hm.
    apply cleanAbs_absPath in Hc as [el [Fe ->]].
    cbn [existsb] in Hm. rewrite orb_false_r in Hm.
    unfold candidate, Separator in Hm.
    destruct el as [|e rest]; [discriminate|].
    rewrite absPath_no_trailing_sep in Hm by (assumption || discriminate).
    cbn [negb] in Hm.
    destruct (Stat fs (absPath (e :: rest))) as [[sz [|]]|err] eqn:Hs;
      cbn [IsDir negb] in Hm.
    + rewrite absPath_no_double_sep in Hm by (assumption || discriminate).
      discriminate.
    + exists (mkFileInfo sz false). split; [reflexivity|]. split; [reflexivity|].
      rewrite (Dir_absPath _ Fe) in *.
      destruct (removelast (e :: rest)) as [|x l] eqn:E; [reflexivity|].
      rewrite absPath_no_double_sep in Hm; [discriminate | | discriminate].
      rewrite <- E. now apply Forall_removelast.
    + rewrite absPath_no_double_sep in Hm by (assumption || discriminate).
      discriminate.
Qed.

Lemma slash_root_allows_only_top_files_witness :
  rootOf Sample.fs "/" = Some "//"
  /\ isPathInAllowedDirs Sample.fs ["//"] "/sandbox/a/f.txt" = false.
Proof.
  destruct (slash_root_allows_only_top_files Sample.fs "/sandbox/a/f.txt")
    as [H1 H2].
  split.
  - apply (H1 (mkFileInfo 4096 true)); reflexivity.
  - destruct (isPathInAllowedDirs Sample.fs ["//"] "/sandbox/a/f.txt") eqn:E;
      [|reflexivity].
    destruct (H2 eq_refl eq_refl) as [info [_ [_ Hd]]]. discriminate.
Defined.

(** ** Writing a configuration and loading it again *)

Lemma Split_Join_sep (elems : list string) (sep : ascii) :
  Forall (fun e => Contains e (String sep "") = false) elems -> elems <> [] ->
  Split (Join elems (String sep "")) sep = elems.
Proof.
  induction elems as [|e rest IH]; intros F Hne; [congruence|].
  inversion F as [|? ? He Hrest]; subst.
  destruct rest as [|e' rest].
  - simpl. now apply Split_nosep.
  - rewrite Join_cons.
    change (e ++ String sep "" ++ Join (e' :: rest) (String sep ""))
      with (e ++ String sep (Join (e' :: rest) (String sep ""))).
    rewrite (Split_app_sep _ _ _ He), IH; [reflexivity | exact Hrest | discriminate].
Qed.

Lemma Split_Join_iff (elems : list string) (sep : ascii) :
  Split (Join elems (String sep "")) sep = elems
  <-> elems <> [] /\ Forall (fun e => Contains e (String sep "") = false) elems.
Proof.
  split.
  - intros H. split.
    + rewrite <- H. apply Split_nonempty.
    + rewrite <- H. apply Split_noSep.
  - intros [Hne F]. now apply Split_Join_sep.
Qed.

(** X11: what [CommandServer.Config] writes, [CommandServer.LoadConfig]
    reads back as the same allowlist exactly when the list is not empty
    and none of its entries contains a comma. *)
Theorem Config_LoadConfig_commands (readFile : string -> result string)
    (cc : CommandConfig) :
  allowedCommands
    (fst (Command.LoadConfig readFile (CommandDefaults.Config cc)))
  = allowedCommands cc
  <-> allowedCommands cc <> []
      /\ Forall (fun cmd => Contains cmd "," = false) (allowedCommands cc).
Proof.
  unfold Command.LoadConfig. rewrite Check_allowedCommands.
  cbn [allowedCommands AllowedCommand CommandDefaults.Config].
  apply Split_Join_iff.
Qed.

(** X12: the default allowlist has one entry that contains a comma,
    [networksetup, git].  No command line that starts with [git] is
    approved under the defaults, and loading the configuration that the
    defaults write breaks the entry in two, [networksetup] and [ git]
    with its space: the list that is loaded is not the default list. *)
Theorem default_allowlist_git (readFile : string -> result string) :
  let loaded :=
    allowedCommands
      (fst (Command.LoadConfig readFile
              (CommandDefaults.Config CommandDefaults.NewCommandConfig))) in
  In "networksetup, git" CommandDefaults.allowedCmdDefault
  /\ (forall args,
        isAllowedCommand CommandDefaults.allowedCmdDefault ("git" ++ args) = false)
  /\ loaded <> CommandDefaults.allowedCmdDefault
  /\ In " git" loaded
  /\ ~ In "git" loaded
  /\ List.length loaded = S (List.length CommandDefaults.allowedCmdDefault).
Proof.
  intros loaded.
  assert (loaded = Split (Join CommandDefaults.allowedCmdDefault ",") ",") as E
    by (unfold loaded, Command.LoadConfig; now rewrite Check_allowedCommands).
  assert (loaded
          = ["ls"; "cat"; "echo"; "pwd"; "head"; "tail"; "grep"; "find"; "stat";
             "df"; "du"; "free"; "top"; "ps"; "uptime"; "who"; "w"; "last";
             "uname"; "hostname"; "ifconfig"; "netstat"; "ping"; "traceroute";
             "route"; "ip"; "ss"; "lsof"; "vmstat"; "iostat"; "mpstat"; "sar";
             "uptime"; "cut"; "sort"; "uniq"; "wc"; "awk"; "sed"; "diff"; "cmp";
             "comm"; "file"; "basename"; "dirname"; "chmod"; "chown"; "curl";
             "nslookup"; "dig"; "host"; "ssh"; "scp"; "sftp"; "ftp"; "wget";
             "tar"; "gzip"; "scutil"; "networksetup"; " git"; "cd"]) as L
    by (rewrite E; reflexivity).
  split; [|split; [|split; [|split; [|split]]]].
  - unfold CommandDefaults.allowedCmdDefault. simpl. tauto.
  - intros args.
    rewrite (isAllowedCommand_prefix_only _ (S (length ("git" ++ args))));
      [reflexivity | lia | reflexivity].
  - rewrite L. discriminate.
  - rewrite L. simpl. tauto.
  - rewrite L. simpl. intros H.
    repeat (destruct H as [H|H]; [discriminate|]). exact H.
  - rewrite L. reflexivity.
Qed.

Lemma cleanElems_snoc_empty (rooted : bool) (elems : list string) :
  cleanElems rooted (elems ++ [""]) = cleanElems rooted elems.
Proof.
  unfold cleanElems. rewrite fold_left_app. cbn [fold_left].
  now destruct (fold_left (cleanStep rooted) elems ([], 0%nat)).
Qed.

Lemma Clean_snoc_sep (path : string) :
  IsAbs path = true -> Clean (path ++ "/") = Clean path.
Proof.
  intros H.
  rewrite (Clean_rooted _ H), (Clean_rooted _ (IsAbs_app _ _ H)).
  now rewrite Split_snoc_sep, cleanElems_snoc_empty.
Qed.

Lemma Clean_idempotent (path : string) :
  IsAbs path = true -> Clean (Clean path) = Clean path.
Proof.
  intros H. pose proof (cleanAbs_Clean _ H) as Hc.
  unfold cleanAbs in Hc. apply andb_true_iff in Hc as [_ Hc].
  now apply String.eqb_eq in Hc.
Qed.

Lemma Check_rootOf (fs : FileSystem) (fc : FileSystemConfig) :
  snd (Filesystem.Check fs fc) = None ->
  map (rootOf fs) (allowedDirs fc)
  = map Some (allowedDirs (fst (Filesystem.Check fs fc))).
Proof.
  intros H. apply Check_roots in H.
  destruct (normalizeDirs_ok _ _ _ _ H) as [news [-> Hmap]]. exact Hmap.
Qed.

Lemma rootOf_blank (fs : FileSystem) (wd entry root : string) :
  Getwd fs = Ok wd -> IsAbs wd = true -> TrimSpace entry = "" ->
  rootOf fs entry = Some root -> root = Clean wd ++ "/".
Proof.
  intros Hwd Ha Ht. unfold rootOf, Abs. rewrite Ht.
  change (IsAbs "") with false. cbv iota. rewrite Hwd.
  destruct wd as [|c wd]; [discriminate|].
  change (JoinPath [String c wd; ""]) with (Clean (String c wd ++ "/")).
  rewrite (Clean_snoc_sep _ Ha), (Clean_idempotent _ Ha).
  destruct (Stat fs (Clean (String c wd))) as [info|e]; [|discriminate].
  destruct (IsDir info); [|discriminate]. intros H. now injection H as <-.
Qed.

(** X13: an empty entry in the [allowed_dir] string allows the working
    directory.  When the string that [FilesystemServer.LoadConfig] splits
    has an entry that is empty or white space -- the empty string and a
    string with a trailing comma have one -- and the load succeeds, the
    cleaned working directory of the process, followed by a separator,
    is one of the allowed roots. *)
Theorem blank_allowed_dir_allows_cwd (fs : FileSystem)
    (merged : FileSystemConfig) (wd entry : string) :
  Getwd fs = Ok wd -> IsAbs wd = true ->
  In entry (Split (AllowedDir merged) ",") -> TrimSpace entry = "" ->
  snd (FilesystemServer.LoadConfig fs merged) = None ->
  In (Clean wd ++ "/")
     (allowedDirs (fst (FilesystemServer.LoadConfig fs merged))).
Proof.
  intros Hwd Ha Hin Ht Hok. unfold FilesystemServer.LoadConfig in *.
  apply Check_rootOf in Hok. cbn [allowedDirs] in Hok.
  assert (In (rootOf fs entry) (map (rootOf fs) (Split (AllowedDir merged) ",")))
    as Hr by now apply in_map.
  rewrite Hok in Hr. apply in_map_iff in Hr as [root [Hroot Hin']].
  symmetry in Hroot.
  now rewrite <- (rootOf_blank _ _ _ _ Hwd Ha Ht Hroot).
Qed.

Lemma blank_allowed_dir_allows_cwd_witness :
  In "/sandbox/"
     (allowedDirs
        (fst (FilesystemServer.LoadConfig (MemFS.snapshot Sample.tree "/sandbox")
                (mkFileSystemConfig "" "" "/outside," [] "/outside")))).
Proof.
  apply (blank_allowed_dir_allows_cwd (MemFS.snapshot Sample.tree "/sandbox")
           (mkFileSystemConfig "" "" "/outside," [] "/outside") "/sandbox" "");
    try reflexivity.
  simpl. tauto.
Defined.

Lemma TrimRightSpace_snoc (s : string) (c : ascii) :
  asciiSpace c = false ->
  TrimRightSpace (s ++ String c "") = s ++ String c "".
Proof.
  intros Hc. induction s as [|d s IH]; simpl.
  - now rewrite Hc.
  - rewrite IH. destruct s; reflexivity.
Qed.

Lemma TrimSpace_root (elems : list string) :
  TrimSpace (absPath elems ++ "/") = absPath elems ++ "/".
Proof.
  unfold TrimSpace, absPath. cbn [append TrimLeftSpace].
  change (asciiSpace "/") with false. cbv iota.
  change (String "/" (Join elems "/" ++ "/"))
    with (String "/" (Join elems "/") ++ String "/" "").
  now apply TrimRightSpace_snoc.
Qed.

(** A root that [Check] has stored is stored again as it is. *)
Lemma rootOf_fixed (fs : FileSystem) (dir root : string) :
  wdAbsolute fs = true -> rootOf fs dir = Some root ->
  rootOf fs root = Some root.
Proof.
  intros Hwd H. unfold rootOf in H.
  destruct (Abs fs (TrimSpace dir)) as [abs|e] eqn:Ha; [|discriminate].
  destruct (Stat fs abs) as [info|e] eqn:Hs; [|discriminate].
  destruct (IsDir info) eqn:Hd; [|discriminate]. injection H as <-.
  pose proof (Abs_cleanAbs _ _ _ Hwd Ha) as Hc.
  apply cleanAbs_absPath in Hc as [elems [F ->]].
  unfold Separator. rewrite (Clean_absPath _ F).
  unfold rootOf. rewrite TrimSpace_root.
  unfold Abs. rewrite IsAbs_app by apply IsAbs_absPath.
  rewrite (Clean_absPath_sep _ F), Hs, Hd, (Clean_absPath _ F). reflexivity.
Qed.

Lemma normalizeDirs_of_rootOf (fs : FileSystem) (dirs roots : list string) :
  map (rootOf fs) dirs = map Some roots ->
  forall normalized,
    normalizeDirs fs dirs normalized = inr (normalized ++ roots)%list.
Proof.
  revert roots; induction dirs as [|dir rest IH]; intros roots H normalized.
  - destruct roots; [|discriminate]. simpl. now rewrite app_nil_r.
  - destruct roots as [|root roots]; [discriminate|].
    cbn [map] in H. injection H as Hd Hrest.
    simpl. unfold rootOf in Hd.
    destruct (Abs fs (TrimSpace dir)) as [abs|e]; [|discriminate].
    destruct (Stat fs abs) as [info|e]; [|discriminate].
    destruct (IsDir info); [|discriminate]. injection Hd as <-. cbn [negb].
    rewrite (IH _ Hrest), <- app_assoc. reflexivity.
Qed.

(** X14: a checked configuration survives being written and loaded
    again.  When [Check] has succeeded, the roots it stored are not the
    empty list and none of them contains a comma, then
    [FilesystemServer.LoadConfig] of what [FilesystemServer.Config]
    writes succeeds on the same file system and stores the same roots. *)
Theorem Config_LoadConfig_roots (fs : FileSystem) (fc : FileSystemConfig) :
  wdAbsolute fs = true ->
  snd (Filesystem.Check fs fc) = None ->
  allowedDirs (fst (Filesystem.Check fs fc)) <> [] ->
  Forall (fun root => Contains root "," = false)
         (allowedDirs (fst (Filesystem.Check fs fc))) ->
  let reloaded :=
    FilesystemServer.LoadConfig fs
      (FilesystemServer.Config (fst (Filesystem.Check fs fc))) in
  snd reloaded = None
  /\ allowedDirs (fst reloaded) = allowedDirs (fst (Filesystem.Check fs fc)).
Proof.
  intros Hwd Hok Hne Hcomma reloaded.
  pose proof (Check_rootOf _ _ Hok) as Hmap.
  set (checked := fst (Filesystem.Check fs fc)) in *.
  assert (map (rootOf fs) (allowedDirs checked) = map Some (allowedDirs checked))
    as Hfix.
  { apply map_ext_in. intros root Hin.
    assert (In (Some root) (map (rootOf fs) (allowedDirs fc))) as Hs
      by (rewrite Hmap; now apply in_map).
    apply in_map_iff in Hs as [dir [Hd _]].
    exact (rootOf_fixed _ _ _ Hwd Hd). }
  assert (Filesystem.PromptFile checked = Filesystem.PromptFile fc
          /\ (Filesystem.PromptFile fc = ""
              \/ exists read, ReadFile fs (Filesystem.PromptFile fc) = Ok read))
    as [HP HR].
  { unfold checked. unfold Filesystem.Check in *.
    destruct (normalizeDirs fs (allowedDirs fc) []); [discriminate|].
    destruct (String.eqb (Filesystem.PromptFile fc) "") eqn:E; cbn [negb] in *.
    - split; [reflexivity|]. left. now apply String.eqb_eq.
    - destruct (ReadFile fs (Filesystem.PromptFile fc)) as [read|e];
        [|discriminate].
      split; [reflexivity|]. right. now exists read. }
  unfold reloaded, FilesystemServer.LoadConfig, FilesystemServer.Config,
    Filesystem.Check.
  cbn [allowedDirs AllowedDir Filesystem.PromptFile].
  rewrite (Split_Join_sep _ _ Hcomma Hne).
  rewrite (normalizeDirs_of_rootOf _ _ _ Hfix []). cbn [app].
  rewrite HP.
  destruct HR as [-> | [read Hr]]; [now split|].
  rewrite Hr.
  destruct (negb (String.eqb (Filesystem.PromptFile fc) "")); now split.
Qed.

Lemma Config_LoadConfig_roots_witness :
  allowedDirs
    (fst (FilesystemServer.LoadConfig Sample.fs
            (FilesystemServer.Config
               (fst (Filesystem.Check Sample.fs
                       (mkFileSystemConfig "" "" "" [" /sandbox/a/.."] ""))))))
  = ["/sandbox/"].
Proof.
  refine (proj2 (Config_LoadConfig_roots Sample.fs
                   (mkFileSystemConfig "" "" "" [" /sandbox/a/.."] "")
                   eq_refl eq_refl _ _)).
  - discriminate.
  - repeat constructor.
Defined.

(** ** Listing the allowed directories *)

Lemma substring_app_l (s t : string) : substring 0 (length s) (s ++ t) = s.
Proof.
  induction s as [|c s IH]; simpl; [now destruct t | now rewrite IH].
Qed.

Lemma substring_app_r (s t : string) :
  substring (length s) (length t) (s ++ t) = t.
Proof.
  induction s as [|c s IH]; simpl; [apply substring_all | exact IH].
Qed.

Lemma length_append (s t : string) :
  length (s ++ t) = (length s + length t)%nat.
Proof. induction s as [|c s IH]; simpl; [reflexivity | now rewrite IH]. Qed.

Lemma HasSuffix_app (s suffix : string) : HasSuffix (s ++ suffix) suffix = true.
Proof.
  unfold HasSuffix. rewrite length_append.
  replace (length s + length suffix - length suffix)%nat with (length s) by lia.
  rewrite substring_app_r, String.eqb_refl, andb_true_r.
  apply Nat.leb_le. lia.
Qed.

Lemma TrimSuffix_app (s suffix : string) : TrimSuffix (s ++ suffix) suffix = s.
Proof.
  unfold TrimSuffix. rewrite HasSuffix_app, length_append.
  replace (length s + length suffix - length suffix)%nat with (length s) by lia.
  apply substring_app_l.
Qed.

(** X15: after a successful [Check], the directories that
    [handleListAllowedDirectories] displays are, in order, the cleaned
    absolute paths of the configured directories: the separator that
    [Check] appended is removed again, also for the directory [/]. *)
Theorem displayDirs_checked (fs : FileSystem) (fc : FileSystemConfig) :
  wdAbsolute fs = true ->
  snd (Filesystem.Check fs fc) = None ->
  map Some (FilesystemServer.displayDirs (fst (Filesystem.Check fs fc)))
  = map (cleanedDir fs) (allowedDirs fc).
Proof.
  intros Hwd Hok. pose proof (Check_rootOf _ _ Hok) as Hmap.
  unfold FilesystemServer.displayDirs.
  revert Hmap. generalize (allowedDirs (fst (Filesystem.Check fs fc))).
  induction (allowedDirs fc) as [|dir rest IH]; intros roots Hmap.
  - destruct roots; [reflexivity | discriminate].
  - destruct roots as [|root roots]; [discriminate|].
    cbn [map] in *. injection Hmap as Hd Hrest.
    rewrite (IH _ Hrest). f_equal.
    unfold rootOf in Hd. unfold cleanedDir.
    destruct (Abs fs (TrimSpace dir)) as [abs|e]; [|discriminate].
    destruct (Stat fs abs) as [info|e]; [|discriminate].
    destruct (IsDir info); [|discriminate]. injection Hd as <-.
    now rewrite TrimSuffix_app.
Qed.

Lemma displayDirs_checked_witness :
  FilesystemServer.displayDirs
    (fst (Filesystem.Check Sample.fs
            (mkFileSystemConfig "" "" "" ["/sandbox/a/"; "/"] "")))
  = ["/sandbox/a"; "/"].
Proof.
  pose proof (displayDirs_checked Sample.fs
                (mkFileSystemConfig "" "" "" ["/sandbox/a/"; "/"] "")
                eq_refl eq_refl) as H.
  cbn [map allowedDirs] in H.
  change (cleanedDir Sample.fs "/sandbox/a/") with (Some "/sandbox/a") in H.
  change (cleanedDir Sample.fs "/") with (Some "/") in H.
  destruct (FilesystemServer.displayDirs _) as [|a [|b [|c l]]];
    try discriminate. now injection H as -> ->.
Defined.

(** ** Searching *)



(** ** What the file handlers do to the machine *)

Section Effects.

Context {W : Type}.
Variable machine : Machine W.
Variable w : W.
Variable fc : FileSystemConfig.
Variable args : Arguments.

Lemma handleWriteFile_trace :
  let trace := snd (snd (run (handleWriteFile machine fc args) w)) in
  trace = []
  \/ exists path content valid,
      stringArg args "path" = Some path
      /\ stringArg args "content" = Some content
      /\ validatePath (files machine w) (allowedDirs fc)
                      (JoinPath [CachePath fc; path]) = Approved valid
      /\ (trace = [MkdirAll (Dir valid)]
          \/ trace = [MkdirAll (Dir valid); WriteFile valid content]).
Proof.
  cbv beta iota zeta
      delta [run handleWriteFile bind readFS ret doMkdirAll doWriteFile act fst snd].
  destruct (stringArg args "path") as [path|]; [|now left].
  destruct (stringArg args "content") as [content|]; [|now left].
  destruct (validatePath (files machine w) (allowedDirs fc)
                         (JoinPath [CachePath fc; path])) as [valid|k] eqn:Hv;
    [|now left].
  destruct (Stat (files machine w) valid) as [[sz [|]]|e];
    try (now left);
    (right; exists path, content, valid;
     split; [reflexivity|]; split; [reflexivity|]; split; [exact Hv|];
     destruct (osMkdirAll machine (Dir valid) w) as [[err1|] w1];
     cbn [fst snd app];
     [now left|];
     destruct (osWriteFile machine valid content w1) as [[err2|] w2];
     cbn [fst snd app];
     [now right|];
     destruct (Stat (files machine w2) valid); now right).
Qed.

Lemma handleCreateDirectory_trace :
  let trace := snd (snd (run (handleCreateDirectory machine fc args) w)) in
  trace = []
  \/ exists path valid,
      stringArg args "path" = Some path
      /\ validatePath (files machine w) (allowedDirs fc) path = Approved valid
      /\ (exists e, Stat (files machine w) valid = Err e)
      /\ trace = [MkdirAll valid].
Proof.
  cbv beta iota zeta
      delta [run handleCreateDirectory bind readFS ret doMkdirAll act fst snd].
  destruct (stringArg args "path") as [path|]; [|now left].
  destruct (validatePath (files machine w) (allowedDirs fc) path)
    as [valid|k] eqn:Hv; [|now left].
  destruct (Stat (files machine w) valid) as [info|e] eqn:Hs.
  - destruct (IsDir info); now left.
  - right. exists path, valid.
    split; [reflexivity|]. split; [exact Hv|]. split; [now exists e|].
    destruct (osMkdirAll machine valid w) as [[err|] w1]; reflexivity.
Qed.

Lemma handleMoveFile_trace :
  let trace := snd (snd (run (handleMoveFile machine fc args) w)) in
  trace = []
  \/ exists source destination validSource validDest,
      stringArg args "source" = Some source
      /\ stringArg args "destination" = Some destination
      /\ validatePath (files machine w) (allowedDirs fc) source
         = Approved validSource
      /\ validatePath (files machine w) (allowedDirs fc) destination
         = Approved validDest
      /\ IsNotExist_of (Stat (files machine w) validSource) = false
      /\ (trace = [MkdirAll (Dir validDest)]
          \/ trace = [MkdirAll (Dir validDest); Rename validSource validDest]).
Proof.
  cbv beta iota zeta
      delta [run handleMoveFile bind readFS ret doMkdirAll doRename act fst snd].
  destruct (stringArg args "source") as [source|]; [|now left].
  destruct (stringArg args "destination") as [destination|]; [|now left].
  destruct (validatePath (files machine w) (allowedDirs fc) source)
    as [validSource|k] eqn:Hs; [|now left].
  assert (IsNotExist_of (Stat (files machine w) validSource)
          = match Stat (files machine w) validSource with
            | Ok _ => false
            | Err err => IsNotExist err
            end) as E by reflexivity.
  rewrite <- E.
  destruct (IsNotExist_of (Stat (files machine w) validSource)) eqn:Hm;
    [now left|].
  destruct (validatePath (files machine w) (allowedDirs fc) destination)
    as [validDest|k] eqn:Hd; [|now left].
  right. exists source, destination, validSource, validDest.
  split; [reflexivity|]. split; [reflexivity|]. split; [exact Hs|].
  split; [exact Hd|]. split; [exact Hm|].
  destruct (osMkdirAll machine (Dir validDest) w) as [[err1|] w1];
    cbn [fst snd app]; [now left|].
  destruct (osRename machine validSource validDest w1) as [[err2|] w2];
    now right.
Qed.

End Effects.

(** X17: the file handlers act on approved paths only, and in a fixed
    order.  Whatever the request, [handleWriteFile] does nothing, or
    creates the directory of the canonical path that [validatePath]
    returned for the requested path and then, if that succeeded, writes
    the file at this canonical path; [handleCreateDirectory] does
    nothing, or creates the directory at the canonical path, and only
    when [os.Stat] found nothing there; [handleMoveFile] does nothing,
    or creates the directory of the canonical destination and then
    renames the canonical source to the canonical destination, and only
    when both were approved and the source was not reported missing.  No
    other effect occurs. *)
Theorem handlers_act_on_approved_paths {W : Type} (machine : Machine W)
    (w : W) (fc : FileSystemConfig) (args : Arguments) :
  (let trace := snd (snd (run (handleWriteFile machine fc args) w)) in
   trace = []
   \/ exists path content valid,
       stringArg args "path" = Some path
       /\ stringArg args "content" = Some content
       /\ validatePath (files machine w) (allowedDirs fc)
                       (JoinPath [CachePath fc; path]) = Approved valid
       /\ (trace = [MkdirAll (Dir valid)]
           \/ trace = [MkdirAll (Dir valid); WriteFile valid content]))
  /\ (let trace := snd (snd (run (handleCreateDirectory machine fc args) w)) in
      trace = []
      \/ exists path valid,
          stringArg args "path" = Some path
          /\ validatePath (files machine w) (allowedDirs fc) path = Approved valid
          /\ (exists e, Stat (files machine w) valid = Err e)
          /\ trace = [MkdirAll valid])
  /\ (let trace := snd (snd (run (handleMoveFile machine fc args) w)) in
      trace = []
      \/ exists source destination validSource validDest,
          stringArg args "source" = Some source
          /\ stringArg args "destination" = Some destination
          /\ validatePath (files machine w) (allowedDirs fc) source
             = Approved validSource
          /\ validatePath (files machine w) (allowedDirs fc) destination
             = Approved validDest
          /\ IsNotExist_of (Stat (files machine w) validSource) = false
          /\ (trace = [MkdirAll (Dir validDest)]
              \/ trace = [MkdirAll (Dir validDest);
                          Rename validSource validDest])).
Proof.
  split; [|split].
  - apply handleWriteFile_trace.
  - apply handleCreateDirectory_trace.
  - apply handleMoveFile_trace.
Qed.

(** ** Merging a JSON object into a configuration *)

Import Utils.

Lemma mergeKey_string (jsonKey s : string) (fields : list Field) :
  mergeKey jsonKey (JString s) fields = (map (setField jsonKey s) fields, Merged).
Proof.
  induction fields as [|f fields IH]; [reflexivity|].
  cbn [mergeKey map]. rewrite IH.
  assert (setField jsonKey s f
          = if String.eqb (tag f) jsonKey && canSet f
            then mkField (tag f) (canSet f) s else f) as -> by reflexivity.
  now destruct (String.eqb (tag f) jsonKey && canSet f).
Qed.

Lemma mergeKey_skip (jsonKey : string) (v : JSON) (fields : list Field) :
  existsb (fun f => String.eqb (tag f) jsonKey && canSet f) fields = false ->
  mergeKey jsonKey v fields = (fields, Merged).
Proof.
  induction fields as [|f fields IH]; [reflexivity|].
  cbn [existsb mergeKey]. intros H. apply orb_false_iff in H as [Hf Hr].
  now rewrite Hf, (IH Hr).
Qed.

Lemma mergeKey_stop (jsonKey : string) (v : JSON) (fields : list Field) :
  (forall s, v <> JString s) ->
  existsb (fun f => String.eqb (tag f) jsonKey && canSet f) fields = true ->
  fst (mergeKey jsonKey v fields) = fields /\
  snd (mergeKey jsonKey v fields) <> Merged.
Proof.
  intros Hv. induction fields as [|f fields IH]; [discriminate|].
  cbn [existsb mergeKey]. intros H.
  destruct (String.eqb (tag f) jsonKey && canSet f) eqn:Hf.
  - destruct v as [s| |]; [now destruct (Hv s)| |]; cbn; now split.
  - cbn [orb] in H. destruct (IH H) as [H1 H2].
    destruct (mergeKey jsonKey v fields) as [rest' outcome]. cbn [fst snd] in *.
    subst rest'. now split.
Qed.

Lemma jsonLookup_In (jsonMap : list (string * JSON)) (k : string) (v : JSON) :
  NoDup (map fst jsonMap) ->
  jsonLookup jsonMap k = Some v <-> In (k, v) jsonMap.
Proof.
  induction jsonMap as [|[k' v'] rest IH]; cbn [jsonLookup map fst In].
  - intros _. split; [discriminate|tauto].
  - intros Hn. inversion Hn as [|? ? Hk Hr]; subst.
    destruct (String.eqb k' k) eqn:E.
    + apply String.eqb_eq in E. subst k'. split.
      * intros [= ->]. now left.
      * intros [[= ->]|Hin]; [reflexivity|].
        destruct Hk. apply in_map_iff. now exists (k, v).
    + apply String.eqb_neq in E. rewrite (IH Hr). split.
      * now right.
      * intros [[= -> _]|Hin]; [now destruct E|exact Hin].
Qed.

Lemma jsonLookup_None (jsonMap : list (string * JSON)) (k : string) :
  ~ In k (map fst jsonMap) -> jsonLookup jsonMap k = None.
Proof.
  induction jsonMap as [|[k' v'] rest IH]; cbn [jsonLookup map fst In]; [easy|].
  intros H. destruct (String.eqb k' k) eqn:E.
  - apply String.eqb_eq in E. tauto.
  - apply IH. tauto.
Qed.

Lemma jsonLookup_Permutation (jsonMap jsonMap' : list (string * JSON)) (k : string) :
  NoDup (map fst jsonMap) -> Permutation jsonMap jsonMap' ->
  jsonLookup jsonMap k = jsonLookup jsonMap' k.
Proof.
  intros Hn Hp.
  assert (NoDup (map fst jsonMap')) as Hn'
    by (eapply Permutation_NoDup; [apply Permutation_map, Hp|exact Hn]).
  destruct (jsonLookup jsonMap k) as [v|] eqn:E.
  - symmetry. apply jsonLookup_In; [exact Hn'|].
    eapply Permutation_in; [exact Hp|]. now apply jsonLookup_In.
  - destruct (jsonLookup jsonMap' k) as [v'|] eqn:E'; [|reflexivity].
    apply jsonLookup_In in E'; [|exact Hn'].
    apply (Permutation_in _ (Permutation_sym Hp)) in E'.
    apply jsonLookup_In in E'; [congruence|exact Hn].
Qed.

Lemma takes_setField (rest : list (string * JSON)) (k s : string) (f : Field) :
  takes rest (setField k s f) = takes rest f.
Proof.
  unfold setField, takes.
  now destruct (String.eqb (tag f) k && canSet f).
Qed.

Lemma existsb_setField (k s k' : string) (fields : list Field) :
  existsb (fun f => String.eqb (tag f) k' && canSet f) (map (setField k s) fields)
  = existsb (fun f => String.eqb (tag f) k' && canSet f) fields.
Proof.
  induction fields as [|f fields IH]; [reflexivity|].
  cbn [map existsb]. rewrite IH. f_equal.
  unfold setField. now destruct (String.eqb (tag f) k && canSet f).
Qed.

Lemma takes_cons_string (rest : list (string * JSON)) (k s : string) (f : Field) :
  ~ In k (map fst rest) ->
  takes ((k, JString s) :: rest) f = takes rest f.
Proof.
  intros Hk. unfold takes. cbn [jsonLookup].
  destruct (canSet f); [|reflexivity].
  destruct (String.eqb k (tag f)) eqn:E; [|reflexivity].
  apply String.eqb_eq in E. subst k. now rewrite (jsonLookup_None _ _ Hk).
Qed.

Lemma mergedField_cons_string (rest : list (string * JSON)) (k s : string) (f : Field) :
  ~ In k (map fst rest) ->
  mergedField rest (setField k s f) = mergedField ((k, JString s) :: rest) f.
Proof.
  intros Hk. unfold mergedField, setField. cbn [jsonLookup].
  rewrite (String.eqb_sym k (tag f)).
  destruct (String.eqb (tag f) k) eqn:E, (canSet f) eqn:Ec; cbn [andb tag canSet value];
    rewrite ?Ec; try reflexivity.
  apply String.eqb_eq in E. subst k. now rewrite (jsonLookup_None _ _ Hk).
Qed.

Lemma takes_cons_skip (rest : list (string * JSON)) (k : string) (v : JSON)
    (fields : list Field) :
  existsb (fun f => String.eqb (tag f) k && canSet f) fields = false ->
  forall f, In f fields ->
    takes ((k, v) :: rest) f = takes rest f /\
    mergedField ((k, v) :: rest) f = mergedField rest f.
Proof.
  intros He f Hin. unfold takes, mergedField. cbn [jsonLookup].
  destruct (canSet f) eqn:Ec; [|now split].
  destruct (String.eqb k (tag f)) eqn:E; [|now split].
  assert (existsb (fun f => String.eqb (tag f) k && canSet f) fields = true) as Ht.
  { apply existsb_exists. exists f. split; [exact Hin|].
    now rewrite String.eqb_sym, E, Ec. }
  congruence.
Qed.

Lemma takes_cons_stop (rest : list (string * JSON)) (k : string) (v : JSON)
    (fields : list Field) :
  (forall s, v <> JString s) ->
  existsb (fun f => String.eqb (tag f) k && canSet f) fields = true ->
  forallb (takes ((k, v) :: rest)) fields = false.
Proof.
  intros Hv He. apply existsb_exists in He as [f [Hin Hf]].
  apply andb_true_iff in Hf as [Ht Hc].
  apply not_true_is_false. intros Hall.
  rewrite forallb_forall in Hall. specialize (Hall f Hin).
  unfold takes in Hall. cbn [jsonLookup] in Hall.
  rewrite Hc, String.eqb_sym, Ht in Hall.
  destruct v as [s| |]; [now destruct (Hv s)|discriminate|discriminate].
Qed.

Lemma forallb_map' {A B} (f : A -> B) (p : B -> bool) (l : list A) :
  forallb p (map f l) = forallb (fun x => p (f x)) l.
Proof.
  induction l as [|x l IH]; [reflexivity|]. cbn [map forallb]. now rewrite IH.
Qed.

Lemma MergeJSONToStruct_spec (jsonMap : list (string * JSON)) :
  NoDup (map fst jsonMap) ->
  forall fields,
    if forallb (takes jsonMap) fields
    then MergeJSONToStruct fields jsonMap = (map (mergedField jsonMap) fields, Merged)
    else snd (MergeJSONToStruct fields jsonMap) <> Merged.
Proof.
  induction jsonMap as [|[k v] rest IH]; intros Hn fields.
  - assert (forallb (takes []) fields = true) as ->.
    { apply forallb_forall. intros f _. unfold takes. now destruct (canSet f). }
    cbn [MergeJSONToStruct]. f_equal. rewrite <- (map_id fields) at 1.
    apply map_ext. intros f. unfold mergedField. now destruct (canSet f).
  - cbn [map fst] in Hn. inversion Hn as [|? ? Hk Hr]; subst.
    cbn [MergeJSONToStruct].
    assert ((exists s, v = JString s) \/ forall s, v <> JString s) as [[s ->]|Hv]
      by (destruct v; [left; eauto|right; discriminate|right; discriminate]).
    + rewrite mergeKey_string.
      specialize (IH Hr (map (setField k s) fields)).
      rewrite forallb_map' in IH.
      rewrite (forallb_ext_In (takes ((k, JString s) :: rest))
                 (fun f => takes rest (setField k s f))).
      2:{ intros f _. now rewrite takes_setField, takes_cons_string. }
      destruct (forallb _ fields); [|exact IH].
      rewrite IH, map_map. f_equal. apply map_ext. intros f.
      now apply mergedField_cons_string.
    + destruct (existsb (fun f => String.eqb (tag f) k && canSet f) fields) eqn:He.
      * rewrite (takes_cons_stop rest k v fields Hv He).
        destruct (mergeKey_stop k v fields Hv He) as [_ H2].
        destruct (mergeKey k v fields) as [fields' outcome]. cbn [snd] in H2.
        now destruct outcome.
      * rewrite (mergeKey_skip k v fields He).
        specialize (IH Hr fields).
        rewrite (forallb_ext_In (takes ((k, v) :: rest)) (takes rest)).
        2:{ intros f Hin. now apply (takes_cons_skip rest k v fields He). }
        destruct (forallb (takes rest) fields); [|exact IH].
        rewrite IH. f_equal. apply map_ext_in. intros f Hin. symmetry.
        now apply (takes_cons_skip rest k v fields He).
Qed.

Lemma takes_true_iff (jsonMap : list (string * JSON)) (fields : list Field) :
  NoDup (map fst jsonMap) ->
  forallb (takes jsonMap) fields = true <->
  (forall f v, In f fields -> canSet f = true -> In (tag f, v) jsonMap ->
               exists s, v = JString s).
Proof.
  intros Hn. rewrite forallb_forall. split.
  - intros H f v Hin Hc Hv. specialize (H f Hin). unfold takes in H.
    apply (jsonLookup_In _ _ _ Hn) in Hv. rewrite Hc, Hv in H.
    destruct v as [s| |]; [now exists s|discriminate|discriminate].
  - intros H f Hin. unfold takes. destruct (canSet f) eqn:Hc; [|reflexivity].
    destruct (jsonLookup jsonMap (tag f)) as [v|] eqn:E; [|reflexivity].
    apply (jsonLookup_In _ _ _ Hn) in E.
    destruct (H f v Hin Hc E) as [s ->]. reflexivity.
Qed.

(** X18: when [MergeJSONToStruct] succeeds and what it leaves.  For a
    JSON object (no key twice), the merge returns no error exactly when
    every value stored under the tag of a settable field is a string;
    keys that are the tag of no settable field are ignored whatever they
    hold.  After a successful merge every settable field whose tag is a
    key holds the string of that key, and every other field its old
    value. *)
Theorem MergeJSONToStruct_Merged (fields : list Field)
    (jsonMap : list (string * JSON)) :
  NoDup (map fst jsonMap) ->
  (snd (MergeJSONToStruct fields jsonMap) = Merged <->
   (forall f v, In f fields -> canSet f = true -> In (tag f, v) jsonMap ->
                exists s, v = JString s))
  /\ (snd (MergeJSONToStruct fields jsonMap) = Merged ->
      fst (MergeJSONToStruct fields jsonMap) = map (mergedField jsonMap) fields).
Proof.
  intros Hn. rewrite <- (takes_true_iff jsonMap fields Hn).
  pose proof (MergeJSONToStruct_spec jsonMap Hn fields) as H.
  destruct (forallb (takes jsonMap) fields).
  - rewrite H. cbn [fst snd]. repeat split; reflexivity.
  - repeat split; intros; try discriminate; contradiction.
Qed.

Lemma MergeJSONToStruct_Merged_witness :
  fst (MergeJSONToStruct
         (commandFields (Command.mkCommandConfig "" "" "ls,pwd" ["ls"; "pwd"]))
         [("allowed_command", JString "cat"); ("level", JOther)])
  = [mkField "prompt_file" true ""; mkField "" false "";
     mkField "allowed_command" true "cat"; mkField "" false ""].
Proof.
  refine (proj2 (MergeJSONToStruct_Merged
                   (commandFields (Command.mkCommandConfig "" "" "ls,pwd" ["ls"; "pwd"]))
                   [("allowed_command", JString "cat"); ("level", JOther)] _) _).
  - repeat constructor; cbn; intuition discriminate.
  - reflexivity.
Defined.

(** X19: the order in which the loop of [MergeJSONToStruct] meets the
    keys of the JSON object (the iteration order of a Go map, which is
    not fixed) does not change a successful merge: met in any other
    order, the same object is merged without error into the same
    fields. *)
Theorem MergeJSONToStruct_order (fields fields' : list Field)
    (jsonMap jsonMap' : list (string * JSON)) :
  NoDup (map fst jsonMap) ->
  Permutation jsonMap jsonMap' ->
  MergeJSONToStruct fields jsonMap = (fields', Merged) ->
  MergeJSONToStruct fields jsonMap' = (fields', Merged).
Proof.
  intros Hn Hp H.
  assert (NoDup (map fst jsonMap')) as Hn'
    by (eapply Permutation_NoDup; [apply Permutation_map, Hp|exact Hn]).
  pose proof (MergeJSONToStruct_spec jsonMap Hn fields) as H1.
  pose proof (MergeJSONToStruct_spec jsonMap' Hn' fields) as H2.
  rewrite (forallb_ext_In (takes jsonMap') (takes jsonMap)) in H2.
  2:{ intros f _. unfold takes.
      now rewrite (jsonLookup_Permutation jsonMap jsonMap' (tag f) Hn Hp). }
  destruct (forallb (takes jsonMap) fields).
  - rewrite H2. rewrite H1 in H. injection H as <-. f_equal.
    apply map_ext. intros f. unfold mergedField.
    now rewrite (jsonLookup_Permutation jsonMap jsonMap' (tag f) Hn Hp).
  - rewrite H in H1. now destruct H1.
Qed.

Lemma MergeJSONToStruct_order_witness :
  MergeJSONToStruct
    (commandFields (Command.mkCommandConfig "" "" "ls,pwd" ["ls"; "pwd"]))
    [("prompt_file", JString "p.md"); ("allowed_command", JString "cat")]
  = ([mkField "prompt_file" true "p.md"; mkField "" false "";
      mkField "allowed_command" true "cat"; mkField "" false ""], Merged).
Proof.
  refine (MergeJSONToStruct_order
            (commandFields (Command.mkCommandConfig "" "" "ls,pwd" ["ls"; "pwd"])) _
            [("allowed_command", JString "cat"); ("prompt_file", JString "p.md")]
            _ _ _ _).
  - repeat constructor; cbn; intuition discriminate.
  - apply perm_swap.
  - reflexivity.
Defined.

(** X20: [CommandServer.LoadConfig] on a JSON object.  When the object
    (no key twice) holds strings under [prompt_file] and
    [allowed_command], whatever else it holds and wherever they stand
    in it, the configuration that is checked has these two strings, and
    its allowlist is the second one split at its commas: the former
    allowlist is replaced as a whole. *)
Theorem CommandLoadConfig_strings (readFile : string -> result string)
    (cc : Command.CommandConfig) (jsonData : list (string * JSON))
    (promptFile allowed : string) :
  NoDup (map fst jsonData) ->
  In ("prompt_file", JString promptFile) jsonData ->
  In ("allowed_command", JString allowed) jsonData ->
  CommandLoadConfig readFile cc jsonData
  = (fst (Command.Check readFile
            (Command.mkCommandConfig promptFile (Command.prompt cc) allowed
                                     (Split allowed ","))),
     inr (snd (Command.Check readFile
            (Command.mkCommandConfig promptFile (Command.prompt cc) allowed
                                     (Split allowed ","))))).
Proof.
  intros Hn Hp Ha.
  apply (jsonLookup_In _ _ _ Hn) in Hp. apply (jsonLookup_In _ _ _ Hn) in Ha.
  unfold CommandLoadConfig.
  pose proof (MergeJSONToStruct_spec jsonData Hn (commandFields cc)) as H.
  unfold commandFields in *.
  cbn [forallb map] in H. unfold takes, mergedField in H.
  cbn [canSet tag value] in H. rewrite Hp, Ha in H. cbn [andb] in H.
  rewrite H. unfold commandOfFields, Command.LoadConfig.
  cbn [value Command.PromptFile Command.prompt Command.AllowedCommand].
  now destruct (Command.Check readFile _).
Qed.

Lemma CommandLoadConfig_strings_witness :
  CommandLoadConfig (fun _ => Err MemFS.ENOENT)
    (Command.mkCommandConfig "" "" "ls,pwd" ["ls"; "pwd"])
    [("allowed_command", JString "cat,echo"); ("prompt_file", JString "")]
  = (Command.mkCommandConfig "" Command.CommandPromptDefault "cat,echo"
       ["cat"; "echo"], inr None).
Proof.
  refine (CommandLoadConfig_strings (fun _ => Err MemFS.ENOENT)
            (Command.mkCommandConfig "" "" "ls,pwd" ["ls"; "pwd"])
            [("allowed_command", JString "cat,echo"); ("prompt_file", JString "")]
            "" "cat,echo" _ _ _).
  - repeat constructor; cbn; intuition discriminate.
  - right. left. reflexivity.
  - left. reflexivity.
Defined.

(** ** The selection of the services *)

Lemma StringInSlice_In (s : string) (modules : list string) :
  StringInSlice s modules = true <-> In s modules.
Proof.
  induction modules as [|m rest IH]; cbn [StringInSlice In].
  - split; [discriminate|tauto].
  - destruct (String.eqb m s) eqn:E.
    + apply String.eqb_eq in E. tauto.
    + apply String.eqb_neq in E. rewrite IH. tauto.
Qed.

(** X21: which services the module filter of [mlsCommandFunc] lets
    through.  A service is created exactly when the flag [--module] is
    [all] or its name is, byte for byte, one of the parts of the flag
    between commas; a name written with a blank after the comma, or in
    another case, is skipped. *)
Theorem moduleSelected_iff (moduleFlag srvName : string) :
  moduleSelected moduleFlag srvName = true <->
  moduleFlag = "all" \/ In srvName (Split moduleFlag ",").
Proof.
  unfold moduleSelected. destruct (String.eqb moduleFlag "all") eqn:E.
  - apply String.eqb_eq in E. cbn. tauto.
  - apply String.eqb_neq in E. cbn [negb].
    pose proof (Split_nonempty moduleFlag ",") as Hne.
    destruct (Split moduleFlag ",") as [|m rest] eqn:Es; [now destruct Hne|].
    cbn [List.length Nat.ltb Nat.leb]. rewrite StringInSlice_In. tauto.
Qed.

(** ** Reading a resource *)

Import Resource.

Lemma TrimPrefix_HasPrefix (s prefix : string) :
  HasPrefix s prefix = true -> s = prefix ++ TrimPrefix s prefix.
Proof.
  intros H. unfold TrimPrefix. rewrite H.
  destruct (HasPrefix_inv _ _ H) as [t ->].
  rewrite length_append, Nat.add_comm, Nat.add_sub.
  now rewrite substring_app_r.
Qed.

(** X22: [handleReadResource] hands out contents only through
    [validatePath].  Whenever it returns contents and no error, the URI
    is [file://] followed by a path that [validatePath] approves, and
    the canonical path that [validatePath] returned names an existing
    file or directory. *)
Theorem handleReadResource_contents_approved (fs : FileSystem) (rd : Reader)
    (roots : list string) (uri : string) (contents : list ResourceContents) :
  handleReadResource fs rd roots uri = inr contents ->
  exists path validPath fileInfo,
    uri = Handlers.pathToResourceURI path
    /\ validatePath fs roots path = Approved validPath
    /\ Stat fs validPath = Ok fileInfo.
Proof.
  unfold handleReadResource. intros H.
  destruct (HasPrefix uri "file://") eqn:Hp; cbn [negb] in H; [|discriminate].
  destruct (validatePath fs roots (TrimPrefix uri "file://")) as [validPath|kind] eqn:Hv;
    [|discriminate].
  destruct (Stat fs validPath) as [fileInfo|err] eqn:Hs; [|discriminate].
  exists (TrimPrefix uri "file://"), validPath, fileInfo.
  split; [|split].
  - exact (TrimPrefix_HasPrefix _ _ Hp).
  - exact Hv.
  - exact Hs.
Qed.

Lemma handleReadResource_contents_approved_witness :
  exists path validPath fileInfo,
    "file:///sandbox/a/../a/f.txt" = Handlers.pathToResourceURI path
    /\ validatePath Sample.fs Sample.roots path = Approved validPath
    /\ Stat Sample.fs validPath = Ok fileInfo.
Proof.
  exact (handleReadResource_contents_approved Sample.fs opaque Sample.roots
           "file:///sandbox/a/../a/f.txt"
           [BlobResourceContents "file:///sandbox/a/../a/f.txt"
              "application/octet-stream" "hello"]
           eq_refl).
Defined.

(** X23: when [handleReadResource] returns the bytes of a file.  A blob
    is returned only for an approved path whose canonical path is a
    file, not a directory, of at most [MaxBase64Size] bytes by its
    [Stat], with a MIME type that is not a text type; the blob is the
    encoding of what [ReadFile] returns for the canonical path, and it
    carries the URI of the request. *)
Theorem handleReadResource_blob (fs : FileSystem) (rd : Reader)
    (roots : list string) (uri : string) (contents : list ResourceContents)
    (blobURI mimeType blob : string) :
  handleReadResource fs rd roots uri = inr contents ->
  In (BlobResourceContents blobURI mimeType blob) contents ->
  exists validPath fileInfo content,
    validatePath fs roots (TrimPrefix uri "file://") = Approved validPath
    /\ Stat fs validPath = Ok fileInfo
    /\ IsDir fileInfo = false
    /\ (Size fileInfo <= MaxBase64Size)%Z
    /\ ReadFile fs validPath = Ok content
    /\ mimeType = detectMimeType rd validPath
    /\ isTextFile rd mimeType = false
    /\ blob = EncodeToString rd content
    /\ blobURI = uri.
Proof.
  unfold handleReadResource. intros H Hin.
  destruct (HasPrefix uri "file://") eqn:Hp; cbn [negb] in H; [|discriminate].
  destruct (validatePath fs roots (TrimPrefix uri "file://")) as [validPath|kind] eqn:Hv;
    [|discriminate].
  destruct (Stat fs validPath) as [fileInfo|err] eqn:Hs; [|discriminate].
  destruct (IsDir fileInfo) eqn:Hd.
  { destruct (ReadDir rd validPath); [|discriminate].
    injection H as <-. destruct Hin as [Hin|[]]. discriminate. }
  destruct (MaxInlineSize <? Size fileInfo)%Z eqn:Hi.
  { injection H as <-. destruct Hin as [Hin|[]]. discriminate. }
  destruct (ReadFile fs validPath) as [content|err] eqn:Hr; [|discriminate].
  destruct (isTextFile rd (detectMimeType rd validPath)) eqn:Ht.
  { injection H as <-. destruct Hin as [Hin|[]]. discriminate. }
  destruct (Size fileInfo <=? MaxBase64Size)%Z eqn:Hb.
  2:{ injection H as <-. destruct Hin as [Hin|[]]. discriminate. }
  injection H as <-. destruct Hin as [Hin|[]]. injection Hin as <- <- <-.
  exists validPath, fileInfo, content.
  apply Z.leb_le in Hb. repeat split; try reflexivity; assumption.
Qed.

Lemma handleReadResource_blob_witness :
  exists validPath fileInfo content,
    validatePath Sample.fs Sample.roots
      (TrimPrefix "file:///sandbox/a/../a/f.txt" "file://") = Approved validPath
    /\ Stat Sample.fs validPath = Ok fileInfo
    /\ IsDir fileInfo = false
    /\ (Size fileInfo <= MaxBase64Size)%Z
    /\ ReadFile Sample.fs validPath = Ok content
    /\ "application/octet-stream" = detectMimeType opaque validPath
    /\ isTextFile opaque "application/octet-stream" = false
    /\ "hello" = EncodeToString opaque content
    /\ "file:///sandbox/a/../a/f.txt" = "file:///sandbox/a/../a/f.txt".
Proof.
  exact (handleReadResource_blob Sample.fs opaque Sample.roots
           "file:///sandbox/a/../a/f.txt"
           [BlobResourceContents "file:///sandbox/a/../a/f.txt"
              "application/octet-stream" "hello"]
           "file:///sandbox/a/../a/f.txt" "application/octet-stream" "hello"
           eq_refl (or_introl eq_refl)).
Defined.
